(** * Peng-Robinson equation of state for CO2: [plot_co2_eos.py]

    A shallow embedding of [calculate_pr_eos] and of [main].  The
    arithmetic is written once over an interface of operations and read
    at two instances: IEEE binary64, which is what numpy's float64 and
    Python's float compute, and the real numbers, which is the formula
    the floating-point code approximates.  The vectorised expressions are
    modelled on lists with numpy's broadcasting written out; a second
    model runs the same statements on a store of array buffers, with
    views that alias their base array and a log of what is printed and
    plotted; a third adds, in binary64, the warnings that numpy issues
    for floating-point exceptions, with the standard error stream and
    Python's warning registry. *)

From Stdlib Require Import List ZArith QArith Bool Lia.
From Stdlib Require String DecimalString.
Import String.StringSyntax.
Delimit Scope string_scope with string.
From Stdlib Require Import Reals Lra Qreals.
From Stdlib Require Import Floats Uint63.
Import ListNotations.

Local Open Scope nat_scope.

(** ** The arithmetic the program uses *)

(** The source uses [+], [-], [*], [/], [np.sqrt], [** 2] and decimal
    literals, on Python floats and on float64 arrays alike.  A literal is
    given by the rational its digits denote. *)
Class Arith (F : Type) : Type := {
  add : F -> F -> F;
  sub : F -> F -> F;
  mul : F -> F -> F;
  div : F -> F -> F;
  sqrt : F -> F;
  lit : Q -> F
}.

Declare Scope arith_scope.
Delimit Scope arith_scope with A.
Infix "+" := add : arith_scope.
Infix "-" := sub : arith_scope.
Infix "*" := mul : arith_scope.
Infix "/" := div : arith_scope.

(** [x ** 2]: numpy squares an array by multiplying it with itself, and
    for the literals 0.228, 8.314 and 304.2 Python's float power is that
    same correctly rounded product. *)
Definition pow2 {F} `{Arith F} (x : F) : F := (x * x)%A.

(** The literal with digits [n / d], and the integer literal [n]. *)
Definition dec {F} `{Arith F} (n : Z) (d : positive) : F := lit (n # d).
Definition int {F} `{Arith F} (n : Z) : F := lit (n # 1).

(** *** IEEE binary64 *)

Module Binary64.

Definition of_Z (z : Z) : float :=
  match z with
  | Zneg p => PrimFloat.opp (PrimFloat.of_uint63 (Uint63.of_Z (Zpos p)))
  | _ => PrimFloat.of_uint63 (Uint63.of_Z z)
  end.

(** A decimal literal is read as the double nearest to it.  For the
    literals of this program numerator and denominator are below 2^53,
    hence exact, and the division rounds their quotient correctly. *)
Definition of_Q (q : Q) : float :=
  PrimFloat.div (of_Z (Qnum q)) (of_Z (Zpos (Qden q))).

#[export] Instance arith : Arith float := {|
  add := PrimFloat.add;
  sub := PrimFloat.sub;
  mul := PrimFloat.mul;
  div := PrimFloat.div;
  sqrt := PrimFloat.sqrt;
  lit := of_Q
|}.

(** The rational a finite double stands for. *)
Definition to_Q (x : float) : option Q :=
  match Prim2SF x with
  | S754_zero _ => Some 0%Q
  | S754_finite s m e =>
      Some (inject_Z (if s then Zneg m else Zpos m) * Qpower 2 e)%Q
  | _ => None
  end.

(** [str(x)] for an array entry that holds an integer, as the entries
    of the temperature array of [main] do: the decimal digits of that
    integer, with a minus sign if it is negative. *)
Definition str (x : float) : String.string :=
  match to_Q x with
  | Some q =>
      DecimalString.NilZero.string_of_int (Z.to_int (Qnum q / Zpos (Qden q)))
  | None => "nan"%string
  end.

End Binary64.

(** *** Real numbers *)

(** The library makes division and the square root total ([x / 0] and
    the root of a negative number are some real); what is proved at this
    instance assumes, or has, positive temperatures and molar volumes
    above [b] wherever that matters. *)

Module Exact.

#[export] Instance arith : Arith R := {|
  add := Rplus;
  sub := Rminus;
  mul := Rmult;
  div := Rdiv;
  sqrt := R_sqrt.sqrt;
  lit := Q2R
|}.

End Exact.

(** ** numpy arrays as lists *)

(** A one-dimensional array is a list; a two-dimensional array is the
    list of its rows. *)
Definition vec (F : Type) : Type := list F.
Definition mat (F : Type) : Type := list (list F).

Fixpoint map2 {A B C} (f : A -> B -> C) (xs : list A) (ys : list B) : list C :=
  match xs, ys with
  | x :: xs', y :: ys' => f x y :: map2 f xs' ys'
  | _, _ => []
  end.

Section Numpy.

Context {F : Type}.

(** [v.reshape(-1, 1)]: the column with one entry per row. *)
Definition reshape_col (v : vec F) : mat F := map (fun x => [x]) v.

(** An array and a scalar: the scalar meets every entry. *)
Definition vmap (f : F -> F) (v : vec F) : vec F := map f v.
Definition mmap (f : F -> F) (m : mat F) : mat F := map (map f) m.

(** Two arrays of one shape: entry by entry. *)
Definition vzip (op : F -> F -> F) (u v : vec F) : vec F := map2 op u v.
Definition mzip (op : F -> F -> F) (m n : mat F) : mat F := map2 (map2 op) m n.

(** A two-dimensional array and a one-dimensional one: the latter is
    taken as a single row and repeated down the rows; along the columns
    an axis of length one is stretched to the other's length. *)
Definition bcast_row (op : F -> F -> F) (r v : list F) : list F :=
  match r, v with
  | [x], _ => map (op x) v
  | _, [y] => map (fun x => op x y) r
  | _, _ => map2 op r v
  end.

Definition bcast (op : F -> F -> F) (m : mat F) (v : vec F) : mat F :=
  map (fun r => bcast_row op r v) m.

(** Two two-dimensional arrays with as many rows each: row by row, an
    axis of length one along the columns being stretched. *)
Definition bcast_rows (op : F -> F -> F) (m n : mat F) : mat F :=
  map2 (bcast_row op) m n.

(** The entry in row [i], column [j]. *)
Definition cell (g : mat F) (i j : nat) : option F :=
  match nth_error g i with
  | Some r => nth_error r j
  | None => None
  end.

End Numpy.

(** ** [calculate_pr_eos] *)

Section Evaluator.

Context {F : Type} `{Arith F}.

Local Open Scope arith_scope.

(** CO2 physical constants. *)
Definition Tc : F := dec 3042 10.
Definition Pc : F := dec 7377000 1.
Definition w : F := dec 228 1000.
Definition R_gas : F := dec 8314 1000.

(** Peng-Robinson constants. *)
Definition Psi : F := dec 45724 100000.
Definition Omega : F := dec 7780 100000.
Definition K : F :=
  dec 37464 100000 + dec 154226 100000 * w - dec 26992 100000 * pow2 w.

(** The [b] parameter is constant. *)
Definition b : F := Omega * R_gas * Tc / Pc.

Definition calculate_pr_eos (temperatures_K molar_volumes : vec F) : mat F :=
  let Tr := vmap (fun t => t / Tc) temperatures_K in
  let Tr := reshape_col Tr in
  let alpha :=
    mmap pow2
      (mmap (fun x => int 1 + x)
         (mmap (fun x => K * x)
            (mmap (fun x => int 1 - x) (mmap sqrt Tr)))) in
  let a :=
    mmap (fun x => x / Pc)
      (mmap (fun x => x * (pow2 R_gas * pow2 Tc))
         (mmap (fun x => Psi * x) alpha)) in
  let pressure_Pa :=
    mzip sub
      (bcast div
         (mmap (fun t => R_gas * t) (reshape_col temperatures_K))
         (vmap (fun v => v - b) molar_volumes))
      (bcast div a
         (vzip add
            (vzip mul molar_volumes (vmap (fun v => v + b) molar_volumes))
            (vmap (fun x => b * x) (vmap (fun v => v - b) molar_volumes)))) in
  pressure_Pa.

(** The quantities of one temperature and of one cell, with the
    operations in the order in which the source applies them. *)
Definition alpha_at (t : F) : F := pow2 (int 1 + K * (int 1 - sqrt (t / Tc))).
Definition a_at (t : F) : F := Psi * alpha_at t * (pow2 R_gas * pow2 Tc) / Pc.
Definition pressure_at (t v : F) : F :=
  R_gas * t / (v - b) - a_at t / (v * (v + b) + b * (v - b)).

End Evaluator.

(** ** The numerical part of [main] *)

Section Pipeline.

Context {F : Type} `{Arith F}.

Local Open Scope arith_scope.

(** [np.linspace(start, stop, num)] as numpy computes it: the step is
    [(stop - start) / (num - 1)], entry [k] is [k * step + start], and
    the last entry is then overwritten with [stop]. *)
Definition linspace (start stop : F) (num : nat) : vec F :=
  let delta := stop - start in
  match num with
  | O => []
  | S O => [int 0 * delta + start]
  | S (S _ as n) =>
      let step := delta / int (Z.of_nat n) in
      map (fun k => int (Z.of_nat k) * step + start) (seq 0 n) ++ [stop]
  end.

Definition molar_mass_co2 : F := dec 44 1000.

Definition densities_kg_m3 : vec F := linspace (int 50) (int 1000) 50.

(** The temperatures are integers in the source; numpy converts them to
    float64, exactly, when they meet a float. *)
Definition temperatures_K : vec F := [int 295; int 325; int 345; int 375].

Definition molar_volumes_m3_mol : vec F :=
  vmap (fun rho => molar_mass_co2 / rho) densities_kg_m3.

Definition pressure_Pa : mat F :=
  calculate_pr_eos temperatures_K molar_volumes_m3_mol.

Definition pressure_MPa : mat F :=
  mmap (fun p => p / dec 1000000 1) pressure_Pa.

End Pipeline.

(** ** The formulas as the specification words them *)

(** These two follow the words of the specification, not the source. *)

Module Claimed.
Section Claimed.

Context {F : Type} `{Arith F}.

Local Open Scope arith_scope.

(** [a[i] = Psi * alpha[i] * R^2 * Tc^2 / Pc], the operations taken
    from left to right as written. *)
Definition a_at (t : F) : F := Psi * alpha_at t * pow2 R_gas * pow2 Tc / Pc.

(** [P[i][j] = R*T[i] / (V[j] - b) - a[i] / (V[j]*(V[j] + b) + b*(V[j] - b))]. *)
Definition pressure_at (t v : F) : F :=
  R_gas * t / (v - b) - a_at t / (v * (v + b) + b * (v - b)).

End Claimed.
End Claimed.

(** ** The contract of the specification: constants from the caller *)

(** These definitions follow the words of the specification (its
    section 4.1), not the source: the evaluator there takes the substance
    constants as a third argument.  They are what the source's function
    is compared with. *)

Module Contract.

Record SubstanceConstants (F : Type) : Type := {
  sc_Tc : F;
  sc_Pc : F;
  sc_w : F;
  sc_R : F
}.

Arguments sc_Tc {F} _.
Arguments sc_Pc {F} _.
Arguments sc_w {F} _.
Arguments sc_R {F} _.

Section Contract.

Context {F : Type} `{Arith F}.

Local Open Scope arith_scope.

Definition co2 : SubstanceConstants F :=
  {| sc_Tc := dec 3042 10; sc_Pc := dec 7377000 1;
     sc_w := dec 228 1000; sc_R := dec 8314 1000 |}.


Definition K_of (c : SubstanceConstants F) : F :=
  dec 37464 100000 + dec 154226 100000 * sc_w c
  - dec 26992 100000 * pow2 (sc_w c).

Definition b_of (c : SubstanceConstants F) : F :=
  dec 7780 100000 * sc_R c * sc_Tc c / sc_Pc c.

Definition alpha_of (c : SubstanceConstants F) (t : F) : F :=
  pow2 (int 1 + K_of c * (int 1 - sqrt (t / sc_Tc c))).

(** [a[i] = Psi * alpha[i] * R^2 * Tc^2 / Pc], the operations taken
    from left to right as the specification writes them. *)
Definition a_of (c : SubstanceConstants F) (t : F) : F :=
  dec 45724 100000 * alpha_of c t * pow2 (sc_R c) * pow2 (sc_Tc c) / sc_Pc c.

Definition pressure_of (c : SubstanceConstants F) (t v : F) : F :=
  sc_R c * t / (v - b_of c)
  - a_of c t / (v * (v + b_of c) + b_of c * (v - b_of c)).

(** [evaluate(temperatures, molar_volumes, constants)], cell by cell over
    the two index ranges. *)
Definition evaluate (temperatures molar_volumes : vec F)
    (constants : SubstanceConstants F) : mat F :=
  map (fun t => map (fun v => pressure_of constants t v) molar_volumes)
      temperatures.

End Contract.
End Contract.

(** ** The program on a store of array buffers *)

Module Store.

(** The shape of an array: one axis, or rows and columns. *)
Inductive shape : Type :=
| Sh1 (n : nat)
| Sh2 (r c : nat).

Definition rows_of (sh : shape) : nat :=
  match sh with Sh1 _ => 1 | Sh2 r _ => r end.

Definition cols_of (sh : shape) : nat :=
  match sh with Sh1 n => n | Sh2 _ c => c end.

Definition size_of (sh : shape) : nat :=
  match sh with Sh1 n => n | Sh2 r c => r * c end.

Definition is_1d (sh : shape) : bool :=
  match sh with Sh1 _ => true | Sh2 _ _ => false end.

(** An array object: the address of its buffer and its shape.  A view
    made by [reshape] has the address of the array it was made from. *)
Record ndarray : Type := { base : nat; dims : shape }.

(** numpy raises [ValueError] when two shapes cannot be broadcast
    together; the specification's [InvalidInput] is never raised by the
    source. *)
Inductive exn : Type :=
| ValueError
| InvalidInput.

Inductive result (A : Type) : Type :=
| Ok (a : A)
| Raise (e : exn).

Arguments Ok {A} a.
Arguments Raise {A} e.

(** Two axis lengths that meet in a binary operation. *)
Definition bdim (m n : nat) : option nat :=
  if Nat.eqb m n then Some m
  else if Nat.eqb m 1 then Some n
  else if Nat.eqb n 1 then Some m
  else None.

(** The shape of the result; a one-axis array counts as a single row. *)
Definition broadcast_shape (s1 s2 : shape) : option shape :=
  match bdim (rows_of s1) (rows_of s2), bdim (cols_of s1) (cols_of s2) with
  | Some r, Some c => Some (if is_1d s1 && is_1d s2 then Sh1 c else Sh2 r c)
  | _, _ => None
  end.

(** An axis of length one is repeated to length [n]. *)
Definition stretch {A : Type} (n : nat) (l : list A) : list A :=
  match l with
  | [x] => repeat x n
  | _ => l
  end.

Fixpoint chunks {A : Type} (c r : nat) (l : list A) : list (list A) :=
  match r with
  | O => []
  | S r' => firstn c l :: chunks c r' (skipn c l)
  end.

(** A flat buffer read through a shape, row by row. *)
Definition view {A : Type} (sh : shape) (data : list A) : list (list A) :=
  chunks (cols_of sh) (rows_of sh) data.

Definition broadcast_op {A : Type} (op : A -> A -> A) (r c : nat)
    (m n : list (list A)) : list (list A) :=
  map2 (fun ra rb => map2 op (stretch c ra) (stretch c rb))
       (stretch r m) (stretch r n).

Section Store.

Context {F : Type} `{Arith F}.

Local Open Scope arith_scope.

(** What the program prints, plots and saves. *)
Inductive event : Type :=
| Figure (width height : nat)
| Plot (xs ys : list F) (marker linestyle label : String.string)
| Title (s : String.string)
| Xlabel (s : String.string)
| Ylabel (s : String.string)
| Legend
| Grid (visible : bool)
| Ylim (bottom : F)
| Savefig (path : String.string) (dpi : nat)
| Printed (s : String.string)
| Shown.

Record state : Type := { heap : list (list F); out : list event }.

Definition M (A : Type) : Type := state -> result A * state.

Definition ret {A : Type} (a : A) : M A := fun s => (Ok a, s).

Definition bind {A B : Type} (m : M A) (k : A -> M B) : M B :=
  fun s =>
    match m s with
    | (Ok a, s') => k a s'
    | (Raise e, s') => (Raise e, s')
    end.

Definition raise {A : Type} (e : exn) : M A := fun s => (Raise e, s).

Definition emit (e : event) : M unit :=
  fun s => (Ok tt, {| heap := heap s; out := out s ++ [e] |}).

(** A new array: a fresh buffer at the end of the heap. *)
Definition alloc (sh : shape) (data : list F) : M ndarray :=
  fun s =>
    (Ok {| base := length (heap s); dims := sh |},
     {| heap := heap s ++ [data]; out := out s |}).

Definition load (a : ndarray) : M (list F) :=
  fun s => (Ok (nth (base a) (heap s) []), s).

Local Notation "x <- c ;; k" := (bind c (fun x => k))
  (at level 61, c at next level, right associativity).
Local Notation "c ;; k" := (bind c (fun _ => k))
  (at level 61, right associativity).

(** An array and a scalar: a new array of the same shape. *)
Definition np_scalar (f : F -> F) (a : ndarray) : M ndarray :=
  data <- load a ;;
  alloc (dims a) (map f data).

(** [a.reshape(-1, 1)]: a view, no new buffer. *)
Definition np_reshape_col (a : ndarray) : M ndarray :=
  ret {| base := base a; dims := Sh2 (size_of (dims a)) 1 |}.

(** Two arrays: the shapes are broadcast or [ValueError] is raised.
    (The warnings of the floating-point operations are in [Warned]
    below, which runs these same operations.) *)
Definition np_binop (op : F -> F -> F) (x y : ndarray) : M ndarray :=
  match broadcast_shape (dims x) (dims y) with
  | None => raise ValueError
  | Some sh =>
      dx <- load x ;;
      dy <- load y ;;
      alloc sh
        (concat (broadcast_op op (rows_of sh) (cols_of sh)
                   (view (dims x) dx) (view (dims y) dy)))
  end.

Definition np_array (data : list F) : M ndarray :=
  alloc (Sh1 (length data)) data.

Definition np_linspace (start stop : F) (num : nat) : M ndarray :=
  alloc (Sh1 num) (linspace start stop num).

(** [a[i, :]] *)
Definition np_row (a : ndarray) (i : nat) : M (list F) :=
  data <- load a ;;
  ret (nth i (view (dims a) data) []).

Definition exec_calculate_pr_eos (temperatures_K molar_volumes : ndarray)
    : M ndarray :=
  Tr <- np_scalar (fun t => t / Tc) temperatures_K ;;
  Tr <- np_reshape_col Tr ;;
  x <- np_scalar sqrt Tr ;;
  x <- np_scalar (fun x => int 1 - x) x ;;
  x <- np_scalar (fun x => K * x) x ;;
  x <- np_scalar (fun x => int 1 + x) x ;;
  alpha <- np_scalar pow2 x ;;
  x <- np_scalar (fun x => Psi * x) alpha ;;
  x <- np_scalar (fun x => x * (pow2 R_gas * pow2 Tc)) x ;;
  a <- np_scalar (fun x => x / Pc) x ;;
  t <- np_reshape_col temperatures_K ;;
  rt <- np_scalar (fun t => R_gas * t) t ;;
  d <- np_scalar (fun v => v - b) molar_volumes ;;
  p1 <- np_binop div rt d ;;
  vb <- np_scalar (fun v => v + b) molar_volumes ;;
  m1 <- np_binop mul molar_volumes vb ;;
  d <- np_scalar (fun v => v - b) molar_volumes ;;
  m2 <- np_scalar (fun x => b * x) d ;;
  d2 <- np_binop add m1 m2 ;;
  p2 <- np_binop div a d2 ;;
  np_binop sub p1 p2.

(** [for i, T in enumerate(temperatures_K): plt.plot(densities_kg_m3,
    pressure_MPa[i, :], marker='o', linestyle='-', label=f'{T} K')].
    [str] is Python's formatting of an entry of the temperature
    array. *)
Fixpoint plot_rows (str : F -> String.string)
    (densities pressure_MPa : ndarray) (i : nat)
    (temperatures : list F) : M unit :=
  match temperatures with
  | [] => ret tt
  | T :: rest =>
      xs <- load densities ;;
      ys <- np_row pressure_MPa i ;;
      emit (Plot xs ys "o"%string "-"%string
              (String.append (str T) " K"%string)) ;;
      plot_rows str densities pressure_MPa (S i) rest
  end.

Definition main (str : F -> String.string) : M unit :=
  densities_kg_m3 <- np_linspace (int 50) (int 1000) 50 ;;
  temperatures_K <- np_array [int 295; int 325; int 345; int 375] ;;
  molar_volumes_m3_mol <-
    np_scalar (fun rho => molar_mass_co2 / rho) densities_kg_m3 ;;
  pressure_Pa <- exec_calculate_pr_eos temperatures_K molar_volumes_m3_mol ;;
  pressure_MPa <- np_scalar (fun p => p / dec 1000000 1) pressure_Pa ;;
  emit (Figure 10 7) ;;
  Ts <- load temperatures_K ;;
  plot_rows str densities_kg_m3 pressure_MPa 0 Ts ;;
  emit (Title "CO2 Pressure vs. Density (Peng-Robinson EOS)"%string) ;;
  emit (Xlabel "Density (kg/m³)"%string) ;;
  emit (Ylabel "Pressure (MPa)"%string) ;;
  emit Legend ;;
  emit (Grid true) ;;
  emit (Ylim (int 0)) ;;
  emit (Savefig "co2_eos_plot.png"%string 300) ;;
  emit (Printed "Plot saved as co2_eos_plot.png"%string) ;;
  emit Shown.

(** An array object [a] of the store holds the rows [m] in the shape [sh]. *)
Definition holds (s : state) (a : ndarray) (sh : shape) (m : mat F) : Prop :=
  dims a = sh
  /\ nth_error (heap s) (base a) = Some (concat m)
  /\ length m = rows_of sh
  /\ Forall (fun row => length row = cols_of sh) m.

(** A state that extends another: old buffers are where they were, with
    their contents, and nothing was written to the log. *)
Definition extends (s s' : state) : Prop :=
  (exists fresh, heap s' = heap s ++ fresh) /\ out s' = out s.

(** What a statement establishes: it returns, the store it leaves
    extends the one it found, and [Q] holds of the result. *)
Definition returns {A : Type} (s : state) (c : M A) (Q : A -> state -> Prop) : Prop :=
  exists a s', c s = (Ok a, s') /\ extends s s' /\ Q a s'.

(** A statement that returns and writes [evs] to the log; the heap it
    leaves extends the one it found. *)
Definition logs {A : Type} (s : state) (c : M A) (evs : list event)
    (Q : A -> state -> Prop) : Prop :=
  exists a s',
    c s = (Ok a, s')
    /\ (exists fresh, heap s' = heap s ++ fresh)
    /\ out s' = out s ++ evs
    /\ Q a s'.

(** A statement that raises [e], having written nothing to the log and
    changed no buffer. *)
Definition raises {A : Type} (s : state) (c : M A) (e : exn) : Prop :=
  exists s', c s = (Raise e, s') /\ extends s s'.

(** The lines [plot_rows] draws: the row of each temperature, counted
    from [i], against [xs], with round markers, a solid line and the
    temperature as label. *)
Fixpoint plot_events (str : F -> String.string) (xs : list F) (rows : mat F)
    (i : nat) (temperatures : list F) : list event :=
  match temperatures with
  | [] => []
  | T :: rest =>
      Plot xs (nth i rows []) "o"%string "-"%string
           (String.append (str T) " K"%string)
      :: plot_events str xs rows (S i) rest
  end.

End Store.

Arguments event F : clear implicits.
Arguments state F : clear implicits.
Arguments M F A : clear implicits.

End Store.

(** ** Comparisons on doubles *)

Module Run64.

Import Binary64.

(** Comparisons of doubles, as IEEE 754 defines them. *)
Definition lt (x y : float) : bool := PrimFloat.ltb x y.
Definition le (x y : float) : bool := PrimFloat.leb x y.
Definition same (x y : float) : bool := PrimFloat.eqb x y.

(** [x] lies within [tol] of [c]. *)
Definition near (x c tol : float) : bool :=
  le (PrimFloat.abs (PrimFloat.sub x c)) tol.

Definition all_finite (g : mat float) : bool :=
  forallb (forallb PrimFloat.is_finite) g.

Fixpoint increasing (l : list float) : bool :=
  match l with
  | x :: (y :: _) as l' => lt x y && increasing l'
  | _ => true
  end.

(** The steps between neighbouring densities. *)
Fixpoint steps (l : list float) : list float :=
  match l with
  | x :: (y :: _) as l' => PrimFloat.sub y x :: steps l'
  | _ => []
  end.

(** The [n]-th double below [x]. *)
Fixpoint below (n : nat) (x : float) : float :=
  match n with
  | O => x
  | S n' => below n' (PrimFloat.next_down x)
  end.

Definition same_cell (o : option float) (y : float) : bool :=
  match o with
  | Some x => same x y
  | None => false
  end.

Fixpoint same_row (r1 r2 : list float) : bool :=
  match r1, r2 with
  | [], [] => true
  | x :: r1', y :: r2' => same x y && same_row r1' r2'
  | _, _ => false
  end.

Fixpoint same_grid (g1 g2 : mat float) : bool :=
  match g1, g2 with
  | [], [] => true
  | r1 :: g1', r2 :: g2' => same_row r1 r2 && same_grid g1' g2'
  | _, _ => false
  end.

(** The first default temperature and the second default molar volume. *)
Definition t0 : float := nth 0 temperatures_K (int 0).
Definition v1 : float := nth 1 molar_volumes_m3_mol (int 0).

End Run64.

(** ** numpy's floating-point warnings *)

(** After every call of a ufunc numpy looks at the floating-point
    exceptions its loop has raised and, with its default settings,
    issues a [RuntimeWarning] for a division by zero, an overflow and an
    invalid operation, in this order; underflow is ignored.  Python's
    default filter writes such a warning to the standard error stream
    the first time it is issued for a given text and source line, and
    records it in the module's warning registry.  This model runs the
    statements of [calculate_pr_eos] in binary64 on the store above, with
    the stream and the registry as two more components of the state. *)

Module Warned.

Import Binary64 Store.

Local Open Scope arith_scope.

Inductive kind : Type :=
| DivideByZero
| Overflow
| Invalid.

(** The ufuncs that the body calls: [+], [-], [*], [/] on arrays,
    [np.sqrt], and [np.square], which is what [** 2] calls on an
    array. *)
Inductive ufunc : Type :=
| np_add
| np_subtract
| np_multiply
| np_divide
| np_sqrt
| np_square.

(** A warning: the source line of the expression that made the call,
    the ufunc, and the exception; text and line are what the registry
    goes by. *)
Record warning : Type := { line : nat; ufunc_of : ufunc; reason : kind }.

Definition kind_eqb (k1 k2 : kind) : bool :=
  match k1, k2 with
  | DivideByZero, DivideByZero | Overflow, Overflow | Invalid, Invalid => true
  | _, _ => false
  end.

Definition ufunc_eqb (u1 u2 : ufunc) : bool :=
  match u1, u2 with
  | np_add, np_add | np_subtract, np_subtract | np_multiply, np_multiply
  | np_divide, np_divide | np_sqrt, np_sqrt | np_square, np_square => true
  | _, _ => false
  end.

Definition warning_eqb (w1 w2 : warning) : bool :=
  Nat.eqb (line w1) (line w2)
  && ufunc_eqb (ufunc_of w1) (ufunc_of w2)
  && kind_eqb (reason w1) (reason w2).

(** What a ufunc computes of one entry, or of one pair of entries; the
    unary ones take their argument twice. *)
Definition apply (u : ufunc) (x y : float) : float :=
  match u with
  | np_add => x + y
  | np_subtract => x - y
  | np_multiply => x * y
  | np_divide => x / y
  | np_sqrt => sqrt x
  | np_square => pow2 x
  end.

(** The IEEE 754 exceptions of one operation: a division by zero is a
    finite dividend other than zero over a zero; an overflow is an
    infinite result of finite operands that is not such a division; an
    operation is invalid when its result is a NaN that no operand
    was. *)
Definition div_by_zero (u : ufunc) (x y : float) : bool :=
  match u with
  | np_divide =>
      PrimFloat.is_zero y && PrimFloat.is_finite x && negb (PrimFloat.is_zero x)
  | _ => false
  end.

Definition overflow (u : ufunc) (x y : float) : bool :=
  PrimFloat.is_infinity (apply u x y)
  && PrimFloat.is_finite x && PrimFloat.is_finite y
  && negb (div_by_zero u x y).

Definition invalid (u : ufunc) (x y : float) : bool :=
  PrimFloat.is_nan (apply u x y)
  && negb (PrimFloat.is_nan x) && negb (PrimFloat.is_nan y).

Definition flags (u : ufunc) (x y : float) : list kind :=
  (if div_by_zero u x y then [DivideByZero] else [])
  ++ (if overflow u x y then [Overflow] else [])
  ++ (if invalid u x y then [Invalid] else []).

(** The exceptions raised anywhere in one call, in the order in which
    numpy reports them. *)
Definition raised (fs : list (list kind)) : list kind :=
  filter (fun k => existsb (existsb (kind_eqb k)) fs)
         [DivideByZero; Overflow; Invalid].

Definition warnings (l : nat) (u : ufunc) (fs : list (list kind))
    : list warning :=
  map (fun k => {| line := l; ufunc_of := u; reason := k |}) (raised fs).

(** The state: the store, what has been written to the standard error
    stream, and the warning registry. *)
Record state : Type := {
  store : Store.state float;
  stderr : list warning;
  registry : list warning
}.

Definition W (A : Type) : Type := state -> result A * state.

Definition ret {A : Type} (a : A) : W A := fun s => (Ok a, s).

Definition bind {A B : Type} (m : W A) (k : A -> W B) : W B :=
  fun s =>
    match m s with
    | (Ok a, s') => k a s'
    | (Raise e, s') => (Raise e, s')
    end.

(** A statement of the store model: it sees the store only. *)
Definition lift {A : Type} (c : Store.M float A) : W A :=
  fun s =>
    let (r, st) := c (store s) in
    (r, {| store := st; stderr := stderr s; registry := registry s |}).

(** [warnings.warn] under the default filter: a warning that is in the
    registry is dropped; another is written and recorded. *)
Definition show (p : list warning * list warning) (w : warning)
    : list warning * list warning :=
  let (err, reg) := p in
  if existsb (warning_eqb w) reg then (err, reg) else (err ++ [w], w :: reg).

Definition shown (ws : list warning) (p : list warning * list warning)
    : list warning * list warning :=
  fold_left show ws p.

(** The end of a ufunc call: one warning for each exception raised. *)
Definition report (l : nat) (u : ufunc) (fs : list (list kind)) : W unit :=
  fun s =>
    let (err, reg) := shown (warnings l u fs) (stderr s, registry s) in
    (Ok tt, {| store := store s; stderr := err; registry := reg |}).

Local Notation "x <- c ;; k" := (bind c (fun x => k))
  (at level 61, c at next level, right associativity).
Local Notation "c ;; k" := (bind c (fun _ => k))
  (at level 61, right associativity).

(** A ufunc over the entries of one array: [f] is what it computes of
    an entry and [fl] the exceptions it raises there. *)
Definition elementwise (l : nat) (u : ufunc) (f : float -> float)
    (fl : float -> list kind) (a : ndarray) : W ndarray :=
  data <- lift (load a) ;;
  r <- lift (np_scalar f a) ;;
  report l u (map fl data) ;;
  ret r.

(** [a op c], [c op a] and [op(a)] for an array [a] and a scalar [c]. *)
Definition array_op_scalar (l : nat) (u : ufunc) (a : ndarray) (c : float)
    : W ndarray :=
  elementwise l u (fun x => apply u x c) (fun x => flags u x c) a.

Definition scalar_op_array (l : nat) (u : ufunc) (c : float) (a : ndarray)
    : W ndarray :=
  elementwise l u (fun x => apply u c x) (fun x => flags u c x) a.

Definition unary (l : nat) (u : ufunc) (a : ndarray) : W ndarray :=
  elementwise l u (fun x => apply u x x) (fun x => flags u x x) a.

(** The exceptions of a ufunc over two arrays, pair by pair after
    broadcasting. *)
Definition broadcast_flags (u : ufunc) (r c : nat)
    (m n : list (list float)) : list (list kind) :=
  concat (map2 (fun ra rb => map2 (flags u) (stretch c ra) (stretch c rb))
               (stretch r m) (stretch r n)).

(** [x op y] for two arrays: when the shapes do not broadcast,
    [ValueError] is raised and nothing was computed. *)
Definition array_op_array (l : nat) (u : ufunc) (x y : ndarray) : W ndarray :=
  match broadcast_shape (dims x) (dims y) with
  | None => lift (raise ValueError)
  | Some sh =>
      dx <- lift (load x) ;;
      dy <- lift (load y) ;;
      r <- lift (np_binop (apply u) x y) ;;
      report l u (broadcast_flags u (rows_of sh) (cols_of sh)
                    (view (dims x) dx) (view (dims y) dy)) ;;
      ret r
  end.

(** The body of [calculate_pr_eos], every ufunc call with the source
    line of its expression: in the statement of lines 41 and 42 the first
    quotient and the final difference begin on line 41, the second
    quotient on line 42. *)
Definition exec_calculate_pr_eos (temperatures_K molar_volumes : ndarray)
    : W ndarray :=
  Tr <- array_op_scalar 32 np_divide temperatures_K Tc ;;
  Tr <- lift (np_reshape_col Tr) ;;
  x <- unary 36 np_sqrt Tr ;;
  x <- scalar_op_array 36 np_subtract (int 1) x ;;
  x <- scalar_op_array 36 np_multiply K x ;;
  x <- scalar_op_array 36 np_add (int 1) x ;;
  alpha <- unary 36 np_square x ;;
  x <- scalar_op_array 37 np_multiply Psi alpha ;;
  x <- array_op_scalar 37 np_multiply x (pow2 R_gas * pow2 Tc) ;;
  a <- array_op_scalar 37 np_divide x Pc ;;
  t <- lift (np_reshape_col temperatures_K) ;;
  rt <- scalar_op_array 41 np_multiply R_gas t ;;
  d <- array_op_scalar 41 np_subtract molar_volumes b ;;
  p1 <- array_op_array 41 np_divide rt d ;;
  vb <- array_op_scalar 42 np_add molar_volumes b ;;
  m1 <- array_op_array 42 np_multiply molar_volumes vb ;;
  d <- array_op_scalar 42 np_subtract molar_volumes b ;;
  m2 <- scalar_op_array 42 np_multiply b d ;;
  d2 <- array_op_array 42 np_add m1 m2 ;;
  p2 <- array_op_array 42 np_divide a d2 ;;
  array_op_array 41 np_subtract p1 p2.

(** The warnings a call issues for temperatures [T] and molar volumes
    [V], statement by statement: those of the operations on each
    temperature, on each molar volume, and on each pair of them. *)
Definition issued (T V : vec float) : list warning :=
  let Tr t := t / Tc in
  let x1 t := int 1 - sqrt (Tr t) in
  let x2 t := K * x1 t in
  let x3 t := int 1 + x2 t in
  let y1 t := Psi * alpha_at t in
  let y2 t := y1 t * (pow2 R_gas * pow2 Tc) in
  let each l u (fl : float -> list kind) (xs : vec float) :=
    warnings l u (map fl xs) in
  let grid l u (fl : float -> float -> list kind) :=
    warnings l u (flat_map (fun t => map (fl t) V) T) in
  (each 32 np_divide (fun t => flags np_divide t Tc) T
   ++ each 36 np_sqrt (fun t => flags np_sqrt (Tr t) (Tr t)) T
   ++ each 36 np_subtract (fun t => flags np_subtract (int 1) (sqrt (Tr t))) T
   ++ each 36 np_multiply (fun t => flags np_multiply K (x1 t)) T
   ++ each 36 np_add (fun t => flags np_add (int 1) (x2 t)) T
   ++ each 36 np_square (fun t => flags np_square (x3 t) (x3 t)) T
   ++ each 37 np_multiply (fun t => flags np_multiply Psi (alpha_at t)) T
   ++ each 37 np_multiply
        (fun t => flags np_multiply (y1 t) (pow2 R_gas * pow2 Tc)) T
   ++ each 37 np_divide (fun t => flags np_divide (y2 t) Pc) T
   ++ each 41 np_multiply (fun t => flags np_multiply R_gas t) T
   ++ each 41 np_subtract (fun v => flags np_subtract v b) V
   ++ grid 41 np_divide (fun t v => flags np_divide (R_gas * t) (v - b))
   ++ each 42 np_add (fun v => flags np_add v b) V
   ++ each 42 np_multiply (fun v => flags np_multiply v (v + b)) V
   ++ each 42 np_subtract (fun v => flags np_subtract v b) V
   ++ each 42 np_multiply (fun v => flags np_multiply b (v - b)) V
   ++ each 42 np_add (fun v => flags np_add (v * (v + b)) (b * (v - b))) V
   ++ grid 42 np_divide
        (fun t v => flags np_divide (a_at t) (v * (v + b) + b * (v - b)))
   ++ grid 41 np_subtract
        (fun t v => flags np_subtract
                      (R_gas * t / (v - b))
                      (a_at t / (v * (v + b) + b * (v - b)))))%list.

(** What a statement establishes: it returns, the store it leaves
    extends the one it found, the warnings [ws] went through the filter
    in this order, and [Q] holds of the result. *)
Definition returns {A : Type} (s : state) (c : W A) (ws : list warning)
    (Q : A -> Store.state float -> Prop) : Prop :=
  exists a s',
    c s = (Ok a, s')
    /\ extends (store s) (store s')
    /\ (stderr s', registry s') = shown ws (stderr s, registry s)
    /\ Q a (store s').

(** A statement with warnings does to the store what the statement of
    the store model does. *)
Definition refines {A : Type} (cw : W A) (c : Store.M float A) : Prop :=
  forall s, fst (cw s) = fst (c (store s))
            /\ store (snd (cw s)) = snd (c (store s)).

End Warned.

(** * Properties *)

Import Binary64 Exact.

(** ** Lists *)

Lemma map2_map_same {A B C D} (f : B -> C -> D) (g : A -> B) (h : A -> C) (l : list A) :
  map2 f (map g l) (map h l) = map (fun x => f (g x) (h x)) l.
Proof.
  induction l as [|x l IH]; simpl; [reflexivity|].
  now rewrite IH.
Qed.

Lemma map2_length {A B C} (f : A -> B -> C) (xs : list A) (ys : list B) :
  length xs = length ys -> length (map2 f xs ys) = length xs.
Proof.
  revert ys; induction xs as [|x xs IH]; intros [|y ys]; simpl;
    try discriminate; auto.
Qed.

Lemma map2_repeat_l {A B C} (f : A -> B -> C) (x : A) (ys : list B) :
  map2 f (repeat x (length ys)) ys = map (f x) ys.
Proof.
  induction ys as [|y ys IH]; simpl; [reflexivity|].
  now rewrite IH.
Qed.

Lemma map2_repeat_r {A B C} (f : A -> B -> C) (xs : list A) (y : B) :
  map2 f xs (repeat y (length xs)) = map (fun x => f x y) xs.
Proof.
  induction xs as [|x xs IH]; simpl; [reflexivity|].
  now rewrite IH.
Qed.

(** ** The grid, cell by cell *)

Section Cells.

Context {F : Type} `{Arith F}.

Local Open Scope arith_scope.

Lemma bcast_reshape_col (op : F -> F -> F) (u v : vec F) :
  bcast op (reshape_col u) v = map (fun x => map (op x) v) u.
Proof.
  unfold bcast, reshape_col.
  rewrite map_map. apply map_ext; intro x. reflexivity.
Qed.

Lemma mmap_reshape_col (f : F -> F) (u : vec F) :
  mmap f (reshape_col u) = reshape_col (map f u).
Proof.
  unfold mmap, reshape_col. rewrite !map_map. reflexivity.
Qed.

(** The vectorised expression computes every cell independently, from
    its own temperature and molar volume. *)
Lemma calculate_pr_eos_cells (T V : vec F) :
  calculate_pr_eos T V = map (fun t => map (fun v => pressure_at t v) V) T.
Proof.
  unfold calculate_pr_eos, vmap, vzip, mzip.
  rewrite !mmap_reshape_col, !map_map.
  rewrite !bcast_reshape_col, !map_map.
  rewrite map2_map_same.
  apply map_ext; intro t.
  rewrite <- (map_id V) at 2.
  rewrite !map2_map_same, !map_map.
  rewrite map2_map_same.
  reflexivity.
Qed.

Lemma calculate_pr_eos_rows (T V : vec F) :
  length (calculate_pr_eos T V) = length T.
Proof. rewrite calculate_pr_eos_cells. apply length_map. Qed.

Lemma calculate_pr_eos_columns (T V : vec F) :
  Forall (fun row => length row = length V) (calculate_pr_eos T V).
Proof.
  rewrite calculate_pr_eos_cells.
  apply Forall_forall; intros row Hin.
  apply in_map_iff in Hin as [t [<- _]]. apply length_map.
Qed.

Lemma calculate_pr_eos_cell (T V : vec F) i j t v :
  nth_error T i = Some t ->
  nth_error V j = Some v ->
  cell (calculate_pr_eos T V) i j = Some (pressure_at t v).
Proof.
  intros Ht Hv. unfold cell.
  rewrite calculate_pr_eos_cells.
  rewrite nth_error_map, Ht; simpl.
  rewrite nth_error_map, Hv; reflexivity.
Qed.

End Cells.

(** ** The store *)

Lemma stretch_id {A} (n : nat) (l : list A) : length l = n -> Store.stretch n l = l.
Proof.
  destruct l as [|x [|y l]]; simpl; intros <-; reflexivity.
Qed.

Lemma chunks_concat {A} (c : nat) (m : list (list A)) :
  Forall (fun row => length row = c) m ->
  Store.chunks c (length m) (concat m) = m.
Proof.
  induction 1 as [|row m Hrow _ IH]; simpl; [reflexivity|].
  rewrite firstn_app, skipn_app.
  replace (c - length row) with 0 by lia.
  rewrite (firstn_all2 row), (skipn_all2 row) by lia; simpl.
  rewrite app_nil_r. now f_equal.
Qed.

Lemma map2_ext_Forall {A B C} (f g : A -> B -> C) (P : A -> Prop) (Q : B -> Prop)
    (xs : list A) (ys : list B) :
  (forall x y, P x -> Q y -> f x y = g x y) ->
  Forall P xs -> Forall Q ys -> map2 f xs ys = map2 g xs ys.
Proof.
  intros Hfg Hxs; revert ys.
  induction Hxs as [|x xs Hx _ IH]; intros ys Hys; [reflexivity|].
  destruct Hys as [|y ys Hy Hys]; [reflexivity|]; simpl.
  rewrite (Hfg x y Hx Hy), (IH ys Hys). reflexivity.
Qed.

Lemma Forall_map2_length {A} (op : A -> A -> A) (c : nat) (m n : list (list A)) :
  Forall (fun row => length row = c) m ->
  Forall (fun row => length row = c) n ->
  Forall (fun row => length row = c) (map2 (map2 op) m n).
Proof.
  intros Hm; revert n.
  induction Hm as [|r m Hr _ IH]; intros n Hn; [constructor|].
  destruct Hn as [|r' n Hr' Hn]; [constructor|]; simpl.
  constructor; [|now apply IH].
  rewrite map2_length; congruence.
Qed.

Section StoreFacts.

Context {F : Type} `{Arith F}.

Import Store.

Lemma extends_refl (s : state F) : extends s s.
Proof. split; [exists []; now rewrite app_nil_r | reflexivity]. Qed.

Lemma extends_trans (s1 s2 s3 : state F) :
  extends s1 s2 -> extends s2 s3 -> extends s1 s3.
Proof.
  intros [[f1 H1] O1] [[f2 H2] O2]. split.
  - exists (f1 ++ f2). now rewrite H2, H1, app_assoc.
  - congruence.
Qed.

Lemma holds_extends (s s' : state F) (a : ndarray) (sh : shape) (m : mat F) :
  extends s s' -> holds s a sh m -> holds s' a sh m.
Proof.
  intros [[fresh Hheap] _] (Hd & Hn & Hr & Hc).
  repeat split; auto.
  rewrite Hheap, nth_error_app1; auto.
  apply nth_error_Some; congruence.
Qed.

Lemma holds_view (s : state F) (a : ndarray) (sh : shape) (m : mat F) :
  holds s a sh m ->
  dims a = sh /\ view sh (nth (base a) (heap s) []) = m.
Proof.
  intros (Hd & Hn & Hr & Hc). split; [assumption|].
  rewrite (nth_error_nth _ _ _ Hn). unfold view.
  rewrite <- Hr. now apply chunks_concat.
Qed.

Lemma returns_bind {A B : Type} (s : state F) (c : M F A) (k : A -> M F B)
    (Q : A -> state F -> Prop) (Q' : B -> state F -> Prop) :
  returns s c Q ->
  (forall a s', extends s s' -> Q a s' -> returns s' (k a) Q') ->
  returns s (bind c k) Q'.
Proof.
  intros (a & s' & Hc & He & HQ) Hk.
  destruct (Hk a s' He HQ) as (b' & s'' & Hk' & He' & HQ').
  exists b', s''. unfold bind. rewrite Hc.
  split; [exact Hk'|]. split; [|exact HQ'].
  now apply extends_trans with s'.
Qed.

Lemma returns_load {A : Type} (s : state F) (a : ndarray) (k : list F -> M F A)
    (Q : A -> state F -> Prop) :
  returns s (k (nth (base a) (heap s) [])) Q -> returns s (bind (load a) k) Q.
Proof. exact (fun Hk => Hk). Qed.

Lemma alloc_holds (s : state F) (sh : shape) (m : mat F) :
  length m = rows_of sh ->
  Forall (fun row => length row = cols_of sh) m ->
  returns s (alloc sh (concat m)) (fun a s' => holds s' a sh m).
Proof.
  intros Hr Hc. eexists _, _. split; [reflexivity|]. split.
  - split; [now exists [concat m] | reflexivity].
  - repeat split; simpl; auto.
    rewrite nth_error_app2, Nat.sub_diag; auto.
Qed.

Lemma np_scalar_holds (s : state F) (f : F -> F) (a : ndarray) (sh : shape) (m : mat F) :
  holds s a sh m ->
  returns s (np_scalar f a) (fun a' s' => holds s' a' sh (mmap f m)).
Proof.
  intros Ha. pose proof Ha as (Hd & Hn & Hr & Hc).
  unfold np_scalar. apply returns_load.
  rewrite (nth_error_nth _ _ _ Hn), concat_map, Hd.
  apply alloc_holds.
  - unfold mmap. now rewrite length_map.
  - unfold mmap. apply Forall_map. revert Hc. apply Forall_impl.
    intros row. now rewrite length_map.
Qed.

Lemma np_scalar_holds_vec (s : state F) (f : F -> F) (a : ndarray) (n : nat) (u : vec F) :
  holds s a (Sh1 n) [u] ->
  returns s (np_scalar f a) (fun a' s' => holds s' a' (Sh1 n) [vmap f u]).
Proof. apply (np_scalar_holds s f a (Sh1 n) [u]). Qed.

Lemma concat_reshape_col (u : vec F) : concat (reshape_col u) = u.
Proof.
  induction u as [|x u IH]; simpl; [reflexivity|]. now rewrite IH.
Qed.

Lemma np_reshape_col_holds (s : state F) (a : ndarray) (n : nat) (u : vec F) :
  holds s a (Sh1 n) [u] ->
  returns s (np_reshape_col a)
    (fun a' s' => holds s' a' (Sh2 n 1) (reshape_col u)).
Proof.
  intros (Hd & Hn & _ & Hc). simpl in Hc. apply Forall_inv in Hc.
  eexists _, _. split; [reflexivity|]. split; [apply extends_refl|].
  repeat split; simpl.
  - now rewrite Hd.
  - rewrite Hn, concat_reshape_col. simpl. now rewrite app_nil_r.
  - unfold reshape_col. now rewrite length_map.
  - unfold reshape_col. apply Forall_map, Forall_forall. reflexivity.
Qed.

Lemma np_binop_returns (s : state F) (op : F -> F -> F) (x y : ndarray)
    (shx shy sh : shape) (mx my r : mat F) :
  holds s x shx mx -> holds s y shy my ->
  broadcast_shape shx shy = Some sh ->
  broadcast_op op (rows_of sh) (cols_of sh) mx my = r ->
  length r = rows_of sh ->
  Forall (fun row => length row = cols_of sh) r ->
  returns s (np_binop op x y) (fun a s' => holds s' a sh r).
Proof.
  intros Hx Hy Hsh Hr Hrows Hcols.
  destruct (holds_view _ _ _ _ Hx) as [Hdx Hvx].
  destruct (holds_view _ _ _ _ Hy) as [Hdy Hvy].
  unfold np_binop. rewrite Hdx, Hdy, Hsh.
  do 2 apply returns_load.
  rewrite Hvx, Hvy, Hr.
  now apply alloc_holds.
Qed.

Lemma bdim_same (n : nat) : bdim n n = Some n.
Proof. unfold bdim. now rewrite Nat.eqb_refl. Qed.

Lemma bdim_one_r (n : nat) : bdim n 1 = Some n.
Proof. unfold bdim. destruct (Nat.eqb n 1); reflexivity. Qed.

Lemma bdim_one_l (n : nat) : bdim 1 n = Some n.
Proof.
  unfold bdim. destruct (Nat.eqb 1 n) eqn:E; [|reflexivity].
  apply Nat.eqb_eq in E. now subst.
Qed.

Lemma bcast_row_length (op : F -> F -> F) (r v : list F) :
  length r = 1 -> length (bcast_row op r v) = length v.
Proof.
  destruct r as [|x [|y r]]; try discriminate; intros _.
  simpl. apply length_map.
Qed.

Lemma np_binop_col_vec (s : state F) (op : F -> F -> F) (x y : ndarray)
    (n k : nat) (mx : mat F) (v : vec F) :
  holds s x (Sh2 n 1) mx -> holds s y (Sh1 k) [v] ->
  returns s (np_binop op x y) (fun a s' => holds s' a (Sh2 n k) (bcast op mx v)).
Proof.
  intros Hx Hy.
  pose proof Hx as (_ & _ & Hxr & Hxc). pose proof Hy as (_ & _ & _ & Hyc).
  simpl in Hxr, Hxc, Hyc. apply Forall_inv in Hyc.
  eapply np_binop_returns; eauto.
  - unfold broadcast_shape; simpl. now rewrite bdim_one_r, bdim_one_l.
  - unfold broadcast_op; simpl.
    rewrite (stretch_id n mx Hxr). rewrite <- Hxr, map2_repeat_r.
    unfold bcast. apply map_ext_in; intros r Hr.
    rewrite Forall_forall in Hxc. specialize (Hxc r Hr).
    destruct r as [|x0 [|y0 r]]; try discriminate.
    rewrite (stretch_id k v Hyc). simpl. rewrite <- Hyc.
    apply map2_repeat_l.
  - unfold bcast; simpl. now rewrite length_map.
  - unfold bcast; simpl. apply Forall_map. revert Hxc. apply Forall_impl.
    intros r Hr. rewrite bcast_row_length; auto.
Qed.

Lemma np_binop_vec_vec (s : state F) (op : F -> F -> F) (x y : ndarray)
    (k : nat) (u v : vec F) :
  holds s x (Sh1 k) [u] -> holds s y (Sh1 k) [v] ->
  returns s (np_binop op x y) (fun a s' => holds s' a (Sh1 k) [vzip op u v]).
Proof.
  intros Hx Hy.
  pose proof Hx as (_ & _ & _ & Hxc). pose proof Hy as (_ & _ & _ & Hyc).
  simpl in Hxc, Hyc. apply Forall_inv in Hxc, Hyc.
  eapply np_binop_returns; eauto.
  - unfold broadcast_shape; simpl. now rewrite bdim_same.
  - unfold broadcast_op; simpl.
    now rewrite (stretch_id k u Hxc), (stretch_id k v Hyc).
  - repeat constructor. simpl. unfold vzip. rewrite map2_length; congruence.
Qed.

Lemma np_binop_mat_mat (s : state F) (op : F -> F -> F) (x y : ndarray)
    (n k : nat) (mx my : mat F) :
  holds s x (Sh2 n k) mx -> holds s y (Sh2 n k) my ->
  returns s (np_binop op x y) (fun a s' => holds s' a (Sh2 n k) (mzip op mx my)).
Proof.
  intros Hx Hy.
  pose proof Hx as (_ & _ & Hxr & Hxc). pose proof Hy as (_ & _ & Hyr & Hyc).
  simpl in Hxr, Hxc, Hyr, Hyc.
  eapply np_binop_returns; eauto.
  - unfold broadcast_shape; simpl. now rewrite !bdim_same.
  - unfold broadcast_op; simpl.
    rewrite (stretch_id n mx Hxr), (stretch_id n my Hyr).
    unfold mzip. apply map2_ext_Forall with (1 := fun ra rb Ha Hb =>
      f_equal2 (map2 op) (stretch_id k ra Ha) (stretch_id k rb Hb)); assumption.
  - unfold mzip; simpl. rewrite map2_length; congruence.
  - now apply Forall_map2_length.
Qed.

(** One statement of the body: run it, then carry what is known of the
    older arrays over to the store it leaves. *)
Ltac carry E :=
  repeat match goal with
         | Hx : holds ?s _ _ _ |- _ =>
             match type of E with
             | extends s _ => apply (holds_extends _ _ _ _ _ E) in Hx
             end
         end.

Ltac statement lem :=
  eapply returns_bind;
  [ eapply lem; eassumption
  | let a := fresh "a" in
    let s' := fresh "s" in
    let E := fresh "E" in
    let Ha := fresh "Ha" in
    intros a s' E Ha; cbv beta in Ha; carry E; clear E ].

Lemma exec_calculate_pr_eos_returns (s : state F) (tK mV : ndarray) (T V : vec F) :
  holds s tK (Sh1 (length T)) [T] ->
  holds s mV (Sh1 (length V)) [V] ->
  returns s (exec_calculate_pr_eos tK mV)
    (fun g s' =>
       holds s' g (Sh2 (length T) (length V)) (calculate_pr_eos T V)).
Proof.
  intros HT HV. unfold exec_calculate_pr_eos, calculate_pr_eos.
  statement np_scalar_holds_vec.
  statement np_reshape_col_holds.
  do 8 statement np_scalar_holds.
  statement np_reshape_col_holds.
  statement np_scalar_holds.
  statement np_scalar_holds_vec.
  statement np_binop_col_vec.
  statement np_scalar_holds_vec.
  statement np_binop_vec_vec.
  do 2 statement np_scalar_holds_vec.
  statement np_binop_vec_vec.
  statement np_binop_col_vec.
  eapply np_binop_mat_mat; eassumption.
Qed.

End StoreFacts.

(** ** Exact arithmetic *)

Section ExactFacts.

Local Open Scope R_scope.

(** The operations and literals of the real instance, spelled out. *)
Ltac reals :=
  unfold pressure_at, Claimed.pressure_at, Claimed.a_at, a_at, alpha_at, b, K,
    Omega, Psi, R_gas, w, Pc, Tc, pow2, dec, int in *;
  cbn [add sub mul div sqrt lit Exact.arith] in *;
  unfold Q2R in *; cbn [Qnum Qden] in *.

Lemma b_value : (b : R) = 778 / 10000 * (8314 / 1000) * (3042 / 10) / 7377000.
Proof. reals. field. Qed.

Lemma b_pos : 0 < (b : R).
Proof. rewrite b_value. lra. Qed.

Lemma K_value : (K : R) = 0.71224375872.
Proof. reals. field. Qed.

Lemma claimed_order_exact (t v : R) : Claimed.pressure_at t v = pressure_at t v.
Proof. reals. unfold Rdiv. ring. Qed.

Lemma Psi_pos : 0 < (Psi : R).
Proof. reals. lra. Qed.

Lemma Pc_pos : 0 < (Pc : R).
Proof. reals. lra. Qed.

Lemma R_gas_pos : 0 < (R_gas : R).
Proof. reals. lra. Qed.

Lemma R2Tc2_pos : 0 < (pow2 R_gas * pow2 Tc : R)%A.
Proof. reals. nra. Qed.

Lemma alpha_at_nonneg (t : R) : 0 <= alpha_at t.
Proof. unfold alpha_at, pow2. cbn [mul Exact.arith]. nra. Qed.

(** [a] is [alpha] times a positive constant. *)
Lemma a_at_scale (t : R) :
  a_at t = alpha_at t * (Psi * (pow2 R_gas * pow2 Tc)%A / Pc).
Proof.
  unfold a_at. cbn [mul div Exact.arith]. unfold Rdiv. ring.
Qed.

Lemma a_scale_pos : 0 < (Psi * (pow2 R_gas * pow2 Tc)%A / Pc : R).
Proof.
  apply Rdiv_lt_0_compat; [|apply Pc_pos].
  apply Rmult_lt_0_compat; [apply Psi_pos | apply R2Tc2_pos].
Qed.

Lemma a_at_nonneg (t : R) : 0 <= a_at t.
Proof.
  rewrite a_at_scale.
  apply Rmult_le_pos; [apply alpha_at_nonneg | apply Rlt_le, a_scale_pos].
Qed.

(** For a temperature above zero the pressure falls strictly as the
    molar volume grows, once the volume exceeds [b] and [4 a / (R T)]. *)
Lemma pressure_at_decreasing (t v1 v2 : R) :
  0 < t -> b < v1 -> 4 * a_at t / (R_gas * t) <= v1 -> v1 < v2 ->
  pressure_at t v2 < pressure_at t v1.
Proof.
  intros Ht Hb Hv Hlt.
  pose proof (a_at_nonneg t) as Ha.
  pose proof b_pos as Hbp.
  unfold pressure_at.
  set (a := a_at t) in *. set (bb := (b : R)) in *.
  cbn [add sub mul div Exact.arith] in *.
  set (x := (R_gas * t)%A) in *.
  assert (Hx : 0 < x).
  { unfold x. reals. nra. }
  cbn [add sub mul div Exact.arith] in *.
  assert (H4 : 4 * a <= x * v1).
  { apply (Rmult_le_compat_r x) in Hv; [|lra].
    unfold Rdiv in Hv. rewrite Rmult_assoc, Rinv_l in Hv by lra. lra. }
  set (D1 := v1 * (v1 + bb) + bb * (v1 - bb)).
  set (D2 := v2 * (v2 + bb) + bb * (v2 - bb)).
  assert (HD1 : v1 * v1 < D1) by (unfold D1; nra).
  assert (HD2 : v2 * v2 < D2) by (unfold D2; nra).
  assert (H1 : 0 < v1 - bb) by lra.
  assert (H2 : 0 < v2 - bb) by lra.
  assert (HD1p : 0 < D1) by nra.
  assert (HD2p : 0 < D2) by nra.
  (* the difference of the two pressures, over a common denominator *)
  assert (E : x / (v1 - bb) - a / D1 - (x / (v2 - bb) - a / D2)
          = (v2 - v1) * (x * D1 * D2 - a * (v1 + v2 + 2 * bb) * (v1 - bb) * (v2 - bb))
            / ((v1 - bb) * (v2 - bb) * D1 * D2)).
  { unfold D1, D2. field. repeat split; unfold D1, D2 in *; lra. }
  change (x / (v2 - bb) - a / D2 < x / (v1 - bb) - a / D1).
  apply Rlt_0_minus. rewrite E.
  apply Rdiv_lt_0_compat.
  - apply Rmult_lt_0_compat; [lra|].
    assert (Hv1 : 0 < v1) by lra.
    assert (Hv2 : 0 < v2) by lra.
    assert (Hq1 : 0 < v1 * v1) by (apply Rmult_lt_0_compat; assumption).
    assert (Hq2 : 0 < v2 * v2) by (apply Rmult_lt_0_compat; assumption).
    assert (S1 : x * ((v1 * v1) * (v2 * v2)) < x * (D1 * D2)).
    { apply Rmult_lt_compat_l; [assumption|].
      apply Rmult_le_0_lt_compat; lra. }
    assert (S2 : a * ((v1 + v2 + 2 * bb) * ((v1 - bb) * (v2 - bb)))
                 <= a * ((4 * v2) * (v1 * v2))).
    { apply Rmult_le_compat_l; [assumption|].
      apply Rmult_le_compat; try lra.
      - apply Rlt_le, Rmult_lt_0_compat; assumption.
      - apply Rmult_le_compat; lra. }
    assert (S3 : a * ((4 * v2) * (v1 * v2)) <= x * ((v1 * v1) * (v2 * v2))).
    { replace (a * ((4 * v2) * (v1 * v2))) with ((4 * a) * (v1 * (v2 * v2))) by ring.
      replace (x * ((v1 * v1) * (v2 * v2))) with ((x * v1) * (v1 * (v2 * v2))) by ring.
      apply Rmult_le_compat_r; [|assumption].
      apply Rlt_le, Rmult_lt_0_compat; assumption. }
    replace (x * D1 * D2) with (x * (D1 * D2)) by ring.
    replace (a * (v1 + v2 + 2 * bb) * (v1 - bb) * (v2 - bb))
      with (a * ((v1 + v2 + 2 * bb) * ((v1 - bb) * (v2 - bb)))) by ring.
    lra.
  - repeat apply Rmult_lt_0_compat; assumption.
Qed.







(** The known-value scenario: the pressure of 300 K and 0.0003 m3/mol
    as a real number, enclosed from a nine-digit enclosure of the square
    root. *)
Lemma sqrt_Tr_300 :
  993072652 / 1000000000 <= (sqrt (int 300 / Tc)%A : R)
  <= 993072653 / 1000000000.
Proof.
  cbn [sqrt Exact.arith]. split.
  - apply Rle_trans
      with (R_sqrt.sqrt ((993072652 / 1000000000) * (993072652 / 1000000000))).
    + rewrite sqrt_square; lra.
    + apply sqrt_le_1_alt. reals. lra.
  - apply Rle_trans
      with (R_sqrt.sqrt ((993072653 / 1000000000) * (993072653 / 1000000000))).
    + apply sqrt_le_1_alt. reals. lra.
    + rewrite sqrt_square; lra.
Qed.

Lemma known_value_exact_bounds :
  5322720 <= pressure_at (int 300 : R) (dec 3 10000) <= 5322720 + 1 / 10.
Proof.
  pose proof sqrt_Tr_300 as [Hlo Hhi].
  unfold pressure_at, a_at, alpha_at.
  set (s := sqrt _) in *.
  reals.
  set (y := 1 * / 1 + _).
  assert (Hy : 1 + 71224375872 / 100000000000 * (1 - 993072653 / 1000000000) <= y
               <= 1 + 71224375872 / 100000000000 * (1 - 993072652 / 1000000000)).
  { unfold y. lra. }
  assert (Hz : (1 + 71224375872 / 100000000000 * (1 - 993072653 / 1000000000)) *
               (1 + 71224375872 / 100000000000 * (1 - 993072653 / 1000000000))
               <= y * y
               <= (1 + 71224375872 / 100000000000 * (1 - 993072652 / 1000000000)) *
                  (1 + 71224375872 / 100000000000 * (1 - 993072652 / 1000000000))).
  { split; apply Rmult_le_compat; lra. }
  set (z := y * y) in *. clearbody z. clear Hy y Hlo Hhi s.
  lra.
Qed.

(** In exact arithmetic density [k] of the default run is
    [50 + k * (950 / 49)]. *)
Lemma densities_evenly_spaced_exact (k : nat) :
  (k < 50)%nat ->
  nth_error (densities_kg_m3 : vec R) k = Some (50 + INR k * (950 / 49)).
Proof.
  intros Hk. unfold densities_kg_m3, linspace.
  destruct (Nat.eq_dec k 49) as [->|Hne].
  - rewrite nth_error_app2 by (rewrite length_map, length_seq; lia).
    rewrite length_map, length_seq. simpl nth_error. f_equal.
    unfold int. cbn [lit Exact.arith]. unfold Q2R; cbn [Qnum Qden].
    simpl INR. lra.
  - rewrite nth_error_app1 by (rewrite length_map, length_seq; lia).
    rewrite nth_error_map, nth_error_seq.
    destruct (Nat.ltb_spec k 49) as [_|Hge]; [|lia].
    simpl option_map. f_equal.
    rewrite INR_IZR_INZ.
    unfold int. cbn [add sub mul div lit Exact.arith].
    unfold Q2R; cbn [Qnum Qden].
    simpl Z.of_nat. field.
Qed.

Lemma densities_range_exact :
  Forall (fun rho : R => 50 <= rho <= 1000) densities_kg_m3.
Proof.
  apply Forall_forall. intros rho Hin.
  apply In_nth_error in Hin as [k Hk].
  assert (Hlt : (k < length (densities_kg_m3 : vec R))%nat).
  { apply nth_error_Some. congruence. }
  change (k < 50)%nat in Hlt.
  rewrite (densities_evenly_spaced_exact k Hlt) in Hk. injection Hk as <-.
  assert (0 <= INR k <= 49).
  { split; [apply pos_INR|]. replace 49 with (INR 49) by (simpl; lra).
    apply le_INR. lia. }
  lra.
Qed.

(** In exact arithmetic too, every molar volume of the default run is
    at least 4.4e-5 and above [b], and both denominators are above
    zero. *)
Lemma default_volumes_clear_of_b_exact :
  Forall (fun v : R =>
            44 / 1000000 <= v /\ b < v /\ 0 < v - b
            /\ 0 < v * (v + b) + b * (v - b))
         molar_volumes_m3_mol.
Proof.
  unfold molar_volumes_m3_mol, vmap. apply Forall_map.
  eapply Forall_impl; [|apply densities_range_exact].
  intros rho [Hlo Hhi]. cbv beta.
  pose proof b_pos as Hb0.
  assert (Hb : (b : R) < 44 / 1000000) by (rewrite b_value; lra).
  assert (Hv : 44 / 1000000 <= (molar_mass_co2 / rho)%A).
  { unfold molar_mass_co2, dec. cbn [div lit Exact.arith].
    unfold Q2R; cbn [Qnum Qden].
    replace (44 / 1000000) with (44 * / 1000 * / 1000) by lra.
    apply Rmult_le_compat_l; [lra|].
    apply Rinv_le_contravar; lra. }
  set (v := (molar_mass_co2 / rho)%A) in *.
  repeat split; try lra. nra.
Qed.

End ExactFacts.

(** ** The evaluator: formula, shape and constants *)

Import Run64.


Lemma same_cell_congr (o1 o2 : option float) (y : float) :
  o1 = o2 -> same_cell o1 y = same_cell o2 y.
Proof. now intros ->. Qed.

(** C1, as stated, fails in binary64.  In the default run the cell of
    295 K and of the second molar volume is not the double that the
    formula gives when [Psi * alpha * R^2 * Tc^2 / Pc] is evaluated from
    left to right: the source multiplies by the product [R^2 * Tc^2], and
    the two roundings differ in the last place. *)
Lemma left_to_right_product_differs :
  exists t v : float,
    nth_error temperatures_K 0 = Some t
    /\ nth_error molar_volumes_m3_mol 1 = Some v
    /\ cell (calculate_pr_eos temperatures_K molar_volumes_m3_mol) 0 1
       <> Some (Claimed.pressure_at t v).
Proof.
  exists t0, v1. split; [reflexivity|]. split; [vm_compute; reflexivity|].
  intros E.
  apply (same_cell_congr _ _ (Claimed.pressure_at t0 v1)) in E.
  vm_compute in E. discriminate E.
Qed.

(** C1, amended: for every temperature vector [T] and molar-volume
    vector [V], cell [i][j] of the grid is
    [R*T[i] / (V[j] - b) - a[i] / (V[j]*(V[j] + b) + b*(V[j] - b))] with
    [b = Omega*R*Tc/Pc], [Omega = 0.07780],
    [K = 0.37464 + 1.54226*w - 0.26992*w^2],
    [alpha[i] = (1 + K*(1 - sqrt(T[i]/Tc)))^2] and
    [a[i] = Psi*alpha[i]*(R^2*Tc^2)/Pc], [Psi = 0.45724], the product
    [R^2*Tc^2] being formed before it multiplies [Psi*alpha[i]].  It holds
    in every arithmetic, binary64 included. *)
Theorem calculate_pr_eos_cell_formula {F : Type} `{Arith F}
    (T V : vec F) (i j : nat) (t v : F) :
  nth_error T i = Some t ->
  nth_error V j = Some v ->
  (cell (calculate_pr_eos T V) i j
   = Some (R_gas * t / (v - b) - a_at t / (v * (v + b) + b * (v - b)))
   /\ a_at t = Psi * alpha_at t * (pow2 R_gas * pow2 Tc) / Pc
   /\ alpha_at t = pow2 (int 1 + K * (int 1 - sqrt (t / Tc)))
   /\ b = Omega * R_gas * Tc / Pc
   /\ K = dec 37464 100000 + dec 154226 100000 * w - dec 26992 100000 * pow2 w
   /\ Omega = dec 7780 100000
   /\ Psi = dec 45724 100000)%A.
Proof.
  intros Ht Hv. split; [|repeat split].
  exact (calculate_pr_eos_cell T V i j t v Ht Hv).
Qed.

Lemma calculate_pr_eos_cell_formula_witness :
  cell (calculate_pr_eos [int 300] [dec 3 10000] : mat float) 0 0
  = Some (pressure_at (int 300) (dec 3 10000)).
Proof.
  exact (proj1 (calculate_pr_eos_cell_formula
                  [int 300] [dec 3 10000] 0 0 (int 300) (dec 3 10000)
                  eq_refl eq_refl)).
Defined.

(** In exact arithmetic the order of the products is immaterial, and the
    formula as the specification words it gives the same cell. *)
Lemma claimed_formula_exact (T V : vec R) (i j : nat) (t v : R) :
  nth_error T i = Some t ->
  nth_error V j = Some v ->
  cell (calculate_pr_eos T V) i j = Some (Claimed.pressure_at t v).
Proof.
  intros Ht Hv. rewrite claimed_order_exact.
  now apply calculate_pr_eos_cell.
Qed.

(** C4: for temperature and molar-volume vectors of lengths [NT] and
    [NV], empty ones included, the grid has exactly [NT] rows, and every
    row has exactly [NV] columns. *)
Theorem calculate_pr_eos_shape {F : Type} `{Arith F} (T V : vec F) :
  length (calculate_pr_eos T V) = length T
  /\ Forall (fun row => length row = length V) (calculate_pr_eos T V).
Proof.
  split; [apply calculate_pr_eos_rows | apply calculate_pr_eos_columns].
Qed.


(** The contract of the specification, as worded, is not met bit for bit
    even at the CO2 constants: its [a] is a product taken from left to
    right, the source's is not, and in the default run the two grids
    differ in binary64. *)
Lemma contract_at_co2_differs_binary64 :
  same_grid (calculate_pr_eos temperatures_K molar_volumes_m3_mol)
            (Contract.evaluate temperatures_K molar_volumes_m3_mol Contract.co2)
  = false.
Proof. vm_compute. reflexivity. Qed.


(** ** The default run in binary64 *)

Lemma a_at_295_325_differ_binary64 :
  same (a_at (int 295)) (a_at (int 325)) = false.
Proof. vm_compute. reflexivity. Qed.

(** In the default run the rows of 295 K and 325 K differ in every
    column. *)
Lemma default_rows_differ_binary64 :
  match (pressure_Pa : mat float) with
  | r0 :: r1 :: _ => forallb (fun p => negb (same (fst p) (snd p))) (combine r0 r1)
  | _ => false
  end = true.
Proof. vm_compute. reflexivity. Qed.

(** With the densities rising, the rows of 325 K, 345 K and 375 K, which
    lie above the critical temperature, rise strictly; the row of 295 K
    does not. *)
Lemma default_rows_monotone_binary64 :
  map increasing (pressure_Pa : mat float) = [false; true; true; true].
Proof. vm_compute. reflexivity. Qed.

(** C5: the default pipeline uses the temperatures 295, 325, 345 and
    375 K and 50 densities from 50 to 1000 kg/m3, evenly spaced (every
    step is 950/49 up to rounding); each molar volume is 0.044 divided by
    its density; the pressure grid has 4 rows of 50 columns and every
    entry is finite. *)
Theorem default_pipeline_grid :
  (temperatures_K : vec float) = [int 295; int 325; int 345; int 375]
  /\ length (densities_kg_m3 : vec float) = 50
  /\ hd_error (densities_kg_m3 : vec float) = Some (int 50)
  /\ nth_error (densities_kg_m3 : vec float) 49 = Some (int 1000)
  /\ forallb (fun d => near d (dec 950 49) (dec 1 1000000000000))
       (steps densities_kg_m3) = true
  /\ (molar_volumes_m3_mol : vec float)
     = map (fun rho => dec 44 1000 / rho)%A densities_kg_m3
  /\ length (pressure_Pa : mat float) = 4
  /\ forallb (fun row => Nat.eqb (length row) 50) (pressure_Pa : mat float) = true
  /\ all_finite pressure_Pa = true.
Proof.
  split; [reflexivity|].
  split; [reflexivity|].
  split; [reflexivity|].
  split; [vm_compute; reflexivity|].
  split; [vm_compute; reflexivity|].
  split; [reflexivity|].
  split; [apply calculate_pr_eos_rows|].
  split; vm_compute; reflexivity.
Qed.

(** C10: in the default run every molar volume exceeds [b]; the
    smallest is the last one, 0.044/1000, about 4.4e-5, against [b] of
    about 2.667e-5; the two denominators [V - b] and
    [V*(V + b) + b*(V - b)] are above zero in every column, hence in
    every cell. *)
Theorem default_volumes_clear_of_b :
  forallb (fun v => lt b v) molar_volumes_m3_mol = true
  /\ forallb (fun v => lt (int 0) (v - b)%A) molar_volumes_m3_mol = true
  /\ forallb (fun v => lt (int 0) (v * (v + b) + b * (v - b))%A)
       molar_volumes_m3_mol = true
  /\ nth_error (molar_volumes_m3_mol : vec float) 49
     = Some (dec 44 1000 / int 1000)%A
  /\ forallb (fun v => le (dec 44 1000 / int 1000)%A v) molar_volumes_m3_mol = true
  /\ near (dec 44 1000 / int 1000)%A (dec 44 1000000) (dec 1 1000000000000) = true
  /\ near b (dec 2667 100000000) (dec 5 1000000000) = true.
Proof. repeat split; vm_compute; reflexivity. Qed.

(** C7, as stated, fails: [K] is 0.71224..., further than 0.009 from
    0.7024; and [b] is 2.66728e-5, which is not 2.666e-5 to the four
    digits given. *)
Lemma K_is_not_0_7024 :
  lt (dec 9 1000) (PrimFloat.abs (K - dec 7024 10000)%A) = true
  /\ near b (dec 2666 100000000) (dec 5 1000000000) = false.
Proof. split; vm_compute; reflexivity. Qed.

(** C7, amended: with the CO2 constants, [T = [300]] and [V = [0.0003]],
    [b] is 2.667e-5 and [K] is 0.7122 to the four digits given; the single
    pressure is the value of the formula of the evaluator, finite, above
    zero and between 1e6 and 1e7 Pa (5322720 to the unit); it is within
    a relative 1e-6 of the formula evaluated from left to right in
    binary64, and of the formula evaluated in exact arithmetic. *)
Theorem known_value_scenario :
  near b (dec 2667 100000000) (dec 5 1000000000) = true
  /\ near K (dec 7122 10000) (dec 5 100000) = true
  /\ exists p : float,
       calculate_pr_eos [int 300] [dec 3 10000] = [[p]]
       /\ p = pressure_at (int 300) (dec 3 10000)
       /\ PrimFloat.is_finite p = true
       /\ lt (int 0) p = true
       /\ lt (dec 1000000 1) p = true
       /\ lt p (dec 10000000 1) = true
       /\ near p (dec 5322720 1) (dec 1 1) = true
       /\ le (PrimFloat.abs (p - Claimed.pressure_at (int 300) (dec 3 10000))%A)
            (dec 1 1000000 * PrimFloat.abs (Claimed.pressure_at (int 300) (dec 3 10000)))%A
          = true
       /\ exists q : Q,
            to_Q p = Some q
            /\ (Rabs (Q2R q - pressure_at (int 300) (dec 3 10000))
                <= 1 / 1000000 * Rabs (pressure_at (int 300) (dec 3 10000)))%R.
Proof.
  split; [vm_compute; reflexivity|].
  split; [vm_compute; reflexivity|].
  exists (pressure_at (int 300) (dec 3 10000)).
  split; [rewrite calculate_pr_eos_cells; reflexivity|].
  do 7 (split; [vm_compute; reflexivity|]).
  exists (5715227151213488 # 1073741824)%Q.
  split; [vm_compute; reflexivity|].
  pose proof known_value_exact_bounds as [Hlo Hhi].
  set (P := pressure_at (int 300 : R) (dec 3 10000)) in *.
  unfold Q2R; cbn [Qnum Qden].
  unfold Rabs. destruct Rcase_abs, Rcase_abs; lra.
Qed.

(** The constants in exact arithmetic, where they are rational. *)
Lemma K_and_b_exact :
  (K : R) = (71224375872 / 100000000000)%R
  /\ (b : R) = (778 / 10000 * (8314 / 1000) * (3042 / 10) / 7377000)%R.
Proof. split; [rewrite K_value; lra | apply b_value]. Qed.

(** C6, as stated, fails in binary64: at 300 K take the 22nd double
    below 1/64 m3/mol and the one next below it, both far above [b] and
    above [4 a / (R T)]; the computed pressure of the smaller volume is
    the smaller one, by one unit in the last place. *)
Lemma adjacent_volumes_pressure_rises :
  let t : float := int 300 in
  let v2 : float := below 22 (dec 1 64) in
  let v1 : float := PrimFloat.next_down v2 in
  lt (int 0) t = true
  /\ lt v1 v2 = true
  /\ lt b v1 = true
  /\ le (int 4 * a_at t / (R_gas * t))%A v1 = true
  /\ calculate_pr_eos [t] [v1; v2] = [[pressure_at t v1; pressure_at t v2]]
  /\ lt (pressure_at t v2) (pressure_at t v1) = false
  /\ lt (pressure_at t v1) (pressure_at t v2) = true.
Proof.
  cbv zeta. repeat split; vm_compute; reflexivity.
Qed.

(** ** Strict decrease and distinct rows, in exact arithmetic *)


Section ExactClaims.

Local Open Scope R_scope.

(** At 300 K the molar volume 1 m3/mol lies in the region of the theorem
    below. *)
Lemma stable_at_300_K : 4 * a_at (int 300) / (R_gas * int 300 : R)%A <= 1.
Proof.
  assert (Hs : 0 <= (sqrt (int 300 / Tc)%A : R) <= 1).
  { cbn [sqrt Exact.arith]. split; [apply sqrt_pos|].
    apply Rle_trans with (R_sqrt.sqrt 1); [|rewrite sqrt_1; lra].
    apply sqrt_le_1_alt.
    unfold Tc, dec, int. cbn [div lit Exact.arith].
    unfold Q2R; cbn [Qnum Qden]. lra. }
  assert (Ha : alpha_at (int 300 : R) <= 3).
  { unfold alpha_at. set (s := sqrt _) in *.
    rewrite K_value. unfold pow2, int. cbn [add sub mul lit Exact.arith].
    unfold Q2R; cbn [Qnum Qden]. nra. }
  assert (Hc : (Psi * (pow2 R_gas * pow2 Tc)%A / Pc : R) <= 1).
  { unfold Psi, R_gas, Tc, Pc, pow2, dec. cbn [mul lit Exact.arith].
    unfold Q2R; cbn [Qnum Qden]. lra. }
  pose proof (alpha_at_nonneg (int 300)) as Ha0.
  pose proof a_scale_pos as Hc0.
  assert (Hb : a_at (int 300 : R) <= 3).
  { rewrite a_at_scale. nra. }
  assert (Hr : (R_gas * int 300 : R)%A = 24942 / 10).
  { unfold R_gas, dec, int. cbn [mul lit Exact.arith].
    unfold Q2R; cbn [Qnum Qden]. lra. }
  rewrite Hr. lra.
Qed.

(** C6, amended: in exact arithmetic, with the CO2 constants, for every
    temperature [T > 0] and molar volumes [V1 < V2] with [V1 > b] and
    [V1 >= 4 a(T) / (R T)], the pressure the evaluator gives at [(T, V1)]
    is strictly greater than the one at [(T, V2)].  In binary64 the
    computed pressures of two molar volumes too close to each other can
    coincide or come out in the opposite order. *)
Theorem pressure_strictly_decreasing (t v1 v2 : R) :
  0 < t ->
  b < v1 ->
  4 * a_at t / (R_gas * t : R)%A <= v1 ->
  v1 < v2 ->
  exists p1 p2 : R,
    calculate_pr_eos [t] [v1; v2] = [[p1; p2]] /\ p2 < p1.
Proof.
  intros Ht Hb Hv Hlt.
  exists (pressure_at t v1), (pressure_at t v2). split.
  - rewrite calculate_pr_eos_cells. reflexivity.
  - now apply pressure_at_decreasing.
Qed.

Lemma pressure_strictly_decreasing_witness :
  exists p1 p2 : R,
    calculate_pr_eos [int 300] [1; 2] = [[p1; p2]] /\ p2 < p1.
Proof.
  apply (pressure_strictly_decreasing (int 300) 1 2).
  - unfold int. cbn [lit Exact.arith]. unfold Q2R; cbn [Qnum Qden]. lra.
  - rewrite b_value. lra.
  - exact stable_at_300_K.
  - lra.
Defined.



End ExactClaims.

(** ** The evaluator on the store: no error, and the frame of a call *)

Import Store.

(** C2, as stated, fails: with the single molar volume equal to [b] the
    evaluator raises nothing and returns a grid whose only entry is
    [+Inf]. *)
Lemma singular_volume_returns_inf :
  let s : state float := {| heap := [[int 300]; [b]]; out := [] |} in
  let tK := {| base := 0; dims := Sh1 1 |} in
  let mV := {| base := 1; dims := Sh1 1 |} in
  le (nth 0 (nth (base mV) (heap s) []) (int 0)) b = true
  /\ (exists g s',
        exec_calculate_pr_eos tK mV s = (Ok g, s')
        /\ nth (base g) (heap s') [] = [PrimFloat.infinity])
  /\ calculate_pr_eos [int 300] [b] = [[PrimFloat.infinity]]
  /\ all_finite (calculate_pr_eos [int 300] [b]) = false.
Proof.
  cbv zeta. split; [vm_compute; reflexivity|]. split.
  - eexists _, _. split; vm_compute; reflexivity.
  - split; vm_compute; reflexivity.
Qed.

(** C2, amended: the evaluator validates nothing and raises no error;
    for every two one-axis input arrays, whatever their entries (molar
    volumes at or below [b] and temperatures at or below zero included),
    it returns the [NT x NV] grid of the formula, whose cells are then
    [Inf], [NaN] or numbers without meaning. *)
Theorem exec_calculate_pr_eos_never_raises {F : Type} `{Arith F}
    (s : state F) (tK mV : ndarray) (T V : vec F) :
  holds s tK (Sh1 (length T)) [T] ->
  holds s mV (Sh1 (length V)) [V] ->
  (forall e : exn, fst (exec_calculate_pr_eos tK mV s) <> Raise e)
  /\ exists g : ndarray,
       fst (exec_calculate_pr_eos tK mV s) = Ok g
       /\ holds (snd (exec_calculate_pr_eos tK mV s)) g
            (Sh2 (length T) (length V)) (calculate_pr_eos T V).
Proof.
  intros HT HV.
  destruct (exec_calculate_pr_eos_returns s tK mV T V HT HV)
    as (g & s' & Hrun & _ & Hg).
  rewrite Hrun; simpl. split; [discriminate|].
  exists g. now split.
Qed.

Lemma holds_vec_at (F : Type) (h : list (list F)) (o : list (event F))
    (i : nat) (u : vec F) :
  nth_error h i = Some u ->
  holds {| heap := h; out := o |} {| base := i; dims := Sh1 (length u) |}
        (Sh1 (length u)) [u].
Proof.
  intros Hi. repeat split; simpl.
  - now rewrite app_nil_r.
  - repeat constructor.
Qed.

Lemma exec_calculate_pr_eos_never_raises_witness :
  let s : state float := {| heap := [[int 0; int 300]; [b]]; out := [] |} in
  let tK := {| base := 0; dims := Sh1 2 |} in
  let mV := {| base := 1; dims := Sh1 1 |} in
  (forall e : exn, fst (exec_calculate_pr_eos tK mV s) <> Raise e)
  /\ exists g : ndarray,
       fst (exec_calculate_pr_eos tK mV s) = Ok g
       /\ holds (snd (exec_calculate_pr_eos tK mV s)) g
            (Sh2 2 1) (calculate_pr_eos [int 0; int 300] [b]).
Proof.
  cbv zeta.
  apply (exec_calculate_pr_eos_never_raises
           {| heap := [[int 0; int 300]; [b]]; out := [] |}
           {| base := 0; dims := Sh1 2 |} {| base := 1; dims := Sh1 1 |}
           [int 0; int 300] [b]).
  - apply (holds_vec_at _ [[int 0; int 300]; [b]] [] 0 [int 0; int 300]).
    reflexivity.
  - apply (holds_vec_at _ [[int 0; int 300]; [b]] [] 1 [b]).
    reflexivity.
Defined.

(** The frame of a call, in any arithmetic: the evaluator returns a new
    array that holds the grid [calculate_pr_eos T V], a function of the
    contents [T] and [V] of its two arguments and of nothing else in the
    store; every buffer that was in the store, those of the two arguments
    included, is where it was with the contents it had, and nothing is
    printed, plotted or saved.  The warnings of numpy are the subject of
    the last part of this file. *)
Lemma exec_calculate_pr_eos_frame {F : Type} `{Arith F}
    (s : state F) (tK mV : ndarray) (T V : vec F) :
  holds s tK (Sh1 (length T)) [T] ->
  holds s mV (Sh1 (length V)) [V] ->
  exists (g : ndarray) (s' : state F),
    exec_calculate_pr_eos tK mV s = (Ok g, s')
    /\ holds s' g (Sh2 (length T) (length V)) (calculate_pr_eos T V)
    /\ holds s' tK (Sh1 (length T)) [T]
    /\ holds s' mV (Sh1 (length V)) [V]
    /\ (exists fresh, heap s' = heap s ++ fresh)
    /\ (forall a sh m, holds s a sh m -> holds s' a sh m)
    /\ out s' = out s.
Proof.
  intros HT HV.
  destruct (exec_calculate_pr_eos_returns s tK mV T V HT HV)
    as (g & s' & Hrun & Hext & Hg).
  exists g, s'.
  split; [exact Hrun|]. split; [exact Hg|].
  split; [now apply holds_extends with s|].
  split; [now apply holds_extends with s|].
  split; [exact (proj1 Hext)|].
  split; [|exact (proj2 Hext)].
  intros a sh m Ha. now apply holds_extends with s.
Qed.

Lemma exec_calculate_pr_eos_frame_example :
  let s : state float :=
    {| heap := [[int 295; int 325]; [dec 3 10000; dec 4 10000; dec 5 10000]];
       out := [Printed "before"%string] |} in
  let tK := {| base := 0; dims := Sh1 2 |} in
  let mV := {| base := 1; dims := Sh1 3 |} in
  exists (g : ndarray) (s' : state float),
    exec_calculate_pr_eos tK mV s = (Ok g, s')
    /\ holds s' g (Sh2 2 3)
         (calculate_pr_eos [int 295; int 325]
            [dec 3 10000; dec 4 10000; dec 5 10000])
    /\ holds s' tK (Sh1 2) [[int 295; int 325]]
    /\ holds s' mV (Sh1 3) [[dec 3 10000; dec 4 10000; dec 5 10000]]
    /\ (exists fresh, heap s' = heap s ++ fresh)
    /\ (forall a sh m, holds s a sh m -> holds s' a sh m)
    /\ out s' = out s.
Proof.
  cbv zeta.
  apply (exec_calculate_pr_eos_frame
           {| heap := [[int 295; int 325]; [dec 3 10000; dec 4 10000; dec 5 10000]];
              out := [Printed "before"%string] |}
           {| base := 0; dims := Sh1 2 |} {| base := 1; dims := Sh1 3 |}
           [int 295; int 325] [dec 3 10000; dec 4 10000; dec 5 10000]).
  - apply (holds_vec_at _ _ _ 0 [int 295; int 325]). reflexivity.
  - apply (holds_vec_at _ _ _ 1 [dec 3 10000; dec 4 10000; dec 5 10000]).
    reflexivity.
Defined.

(** [main] on the store, run in binary64: it returns, and what it plots
    is, for each of the four temperatures, the 50 densities against the
    row of [pressure_MPa] of the list model; it then decorates and saves
    the figure, prints a message and shows the figure. *)
Lemma main_effects :
  let '(r, s) := main Binary64.str {| heap := []; out := [] |} in
  r = Ok tt
  /\ out s
     = [Figure 10 7;
        Plot densities_kg_m3 (nth 0 pressure_MPa []) "o"%string "-"%string "295 K"%string;
        Plot densities_kg_m3 (nth 1 pressure_MPa []) "o"%string "-"%string "325 K"%string;
        Plot densities_kg_m3 (nth 2 pressure_MPa []) "o"%string "-"%string "345 K"%string;
        Plot densities_kg_m3 (nth 3 pressure_MPa []) "o"%string "-"%string "375 K"%string;
        Title "CO2 Pressure vs. Density (Peng-Robinson EOS)"%string;
        Xlabel "Density (kg/m³)"%string;
        Ylabel "Pressure (MPa)"%string;
        Legend; Grid true; Ylim (int 0);
        Savefig "co2_eos_plot.png"%string 300;
        Printed "Plot saved as co2_eos_plot.png"%string;
        Shown].
Proof. vm_compute. split; reflexivity. Qed.

(** * Further properties *)

(** ** Grids in blocks *)

(** X1: a grid can be computed in blocks, in any arithmetic: the grid
    of two temperature vectors put end to end is the grid of the first on
    top of the grid of the second, and the grid of two molar-volume
    vectors put end to end has, in every row, the row of the first
    followed by the row of the second. *)
Theorem calculate_pr_eos_blocks {F : Type} `{Arith F} (T1 T2 V1 V2 : vec F) :
  calculate_pr_eos (T1 ++ T2) V1
  = calculate_pr_eos T1 V1 ++ calculate_pr_eos T2 V1
  /\ calculate_pr_eos T1 (V1 ++ V2)
     = map2 (@app F) (calculate_pr_eos T1 V1) (calculate_pr_eos T1 V2).
Proof.
  rewrite !calculate_pr_eos_cells. split.
  - apply map_app.
  - rewrite map2_map_same. apply map_ext; intro t. apply map_app.
Qed.

Section ExactExtras.

Local Open Scope R_scope.

Ltac exact_arith :=
  unfold b, K, Omega, Psi, R_gas, w, Pc, Tc, pow2, dec, int in *;
  cbn [add sub mul div sqrt lit Exact.arith] in *;
  unfold Q2R in *; cbn [Qnum Qden] in *.

Lemma Tc_value : (Tc : R) = 3042 / 10.
Proof. exact_arith. lra. Qed.

Lemma R_gas_value : (R_gas : R) = 8314 / 1000.
Proof. exact_arith. lra. Qed.

Lemma denominators_above_b (v : R) :
  b < v -> 0 < v - b /\ v * v < v * (v + b) + b * (v - b).
Proof.
  intros Hv. pose proof b_pos. split; [lra | nra].
Qed.

(** X2: in exact arithmetic, for a temperature that is not negative
    and a molar volume above [b], both denominators of the cell are above
    zero, and the pressure does not exceed the repulsive term
    [R T / (V - b)]: the attraction term only lowers it. *)
Theorem no_singular_cell_above_b (t v : R) :
  0 <= t ->
  b < v ->
  0 < v - b
  /\ 0 < v * (v + b) + b * (v - b)
  /\ exists p : R,
       calculate_pr_eos [t] [v] = [[p]] /\ p <= R_gas * t / (v - b).
Proof.
  intros Ht Hv.
  destruct (denominators_above_b v Hv) as [H1 H2].
  assert (HD : 0 < v * (v + b) + b * (v - b)) by nra.
  split; [exact H1|]. split; [exact HD|].
  exists (pressure_at t v). split.
  - rewrite calculate_pr_eos_cells. reflexivity.
  - unfold pressure_at. cbn [add sub mul div Exact.arith].
    pose proof (a_at_nonneg t) as Ha.
    assert (0 <= a_at t / (v * (v + b) + b * (v - b))).
    { apply Rmult_le_pos; [assumption|]. apply Rlt_le, Rinv_0_lt_compat, HD. }
    lra.
Qed.


Lemma no_singular_cell_above_b_witness :
  0 < 1 - b
  /\ 0 < 1 * (1 + b) + b * (1 - b)
  /\ exists p : R,
       calculate_pr_eos [300] [1] = [[p]] /\ p <= R_gas * 300 / (1 - b).
Proof.
  apply (no_singular_cell_above_b 300 1).
  - lra.
  - rewrite b_value. lra.
Defined.

(** X3: in exact arithmetic, for a temperature above zero and a molar
    volume above [b] that is at least [a(T) / (R T)], the pressure is
    above zero. *)
Theorem pressure_positive_at_large_volume (t v : R) :
  0 < t ->
  b < v ->
  a_at t / (R_gas * t : R)%A <= v ->
  exists p : R, calculate_pr_eos [t] [v] = [[p]] /\ 0 < p.
Proof.
  intros Ht Hb Hv.
  exists (pressure_at t v). split.
  { rewrite calculate_pr_eos_cells. reflexivity. }
  pose proof (a_at_nonneg t) as Ha. pose proof b_pos as Hb0.
  pose proof R_gas_pos as HR.
  destruct (denominators_above_b v Hb) as [H1 H2].
  unfold pressure_at. cbn [add sub mul div Exact.arith] in *.
  set (a := a_at t) in *. set (x := (R_gas : R) * t) in *.
  set (D := v * (v + b) + b * (v - b)) in *.
  assert (Hx : 0 < x) by (unfold x; nra).
  assert (Hv0 : 0 < v) by lra.
  assert (Hax : a <= x * v).
  { apply (Rmult_le_compat_r x) in Hv; [|lra].
    unfold Rdiv in Hv. rewrite Rmult_assoc, Rinv_l in Hv by lra. lra. }
  assert (HD : 0 < D) by nra.
  (* x / v < x / (v - b) and a / D <= a / (v * v) <= x / v *)
  assert (E1 : x / v < x / (v - b)).
  { apply Rmult_lt_compat_l; [assumption|].
    apply Rinv_lt_contravar; [nra | lra]. }
  assert (E2 : a / D <= x / v).
  { apply Rle_trans with (a / (v * v)).
    - apply Rmult_le_compat_l; [assumption|].
      apply Rinv_le_contravar; [nra | lra].
    - apply Rmult_le_reg_r with (v * v); [nra|].
      unfold Rdiv. rewrite Rmult_assoc, Rinv_l by nra.
      replace (x * / v * (v * v)) with (x * v * (v * / v)) by ring.
      rewrite Rinv_r by lra. lra. }
  lra.
Qed.

Lemma pressure_positive_at_large_volume_witness :
  exists p : R, calculate_pr_eos [int 300] [1] = [[p]] /\ 0 < p.
Proof.
  apply (pressure_positive_at_large_volume (int 300) 1).
  - unfold int. cbn [lit Exact.arith]. unfold Q2R; cbn [Qnum Qden]. lra.
  - rewrite b_value. lra.
  - pose proof stable_at_300_K as Hs.
    pose proof (a_at_nonneg (int 300)) as Ha.
    assert (Hr : 0 < (R_gas * int 300 : R)%A).
    { unfold R_gas, dec, int. cbn [mul lit Exact.arith].
      unfold Q2R; cbn [Qnum Qden]. lra. }
    apply Rle_trans with (4 * a_at (int 300) / (R_gas * int 300 : R)%A);
      [|exact Hs].
    unfold Rdiv. apply Rmult_le_compat_r.
    + apply Rlt_le, Rinv_0_lt_compat, Hr.
    + lra.
Defined.

(** The square root of the reduced temperature. *)
Lemma sqrt_Tr_bounds (t : R) :
  0 <= t -> t <= 4 * Tc ->
  0 <= (sqrt (t / Tc)%A : R) <= 2.
Proof.
  intros H0 H4. cbn [sqrt div Exact.arith]. rewrite Tc_value in *.
  split; [apply sqrt_pos|].
  apply Rle_trans with (R_sqrt.sqrt (2 * 2)); [|rewrite sqrt_square; lra].
  apply sqrt_le_1_alt. lra.
Qed.

Lemma sqrt_Tr_increasing (t1 t2 : R) :
  0 <= t1 -> t1 < t2 ->
  (sqrt (t1 / Tc)%A : R) < sqrt (t2 / Tc)%A.
Proof.
  intros H0 Hlt. cbn [sqrt div Exact.arith]. rewrite Tc_value.
  apply sqrt_lt_1_alt. lra.
Qed.

Lemma sqrt_Tr_at_Tc : (sqrt (Tc / Tc)%A : R) = 1.
Proof.
  cbn [sqrt div Exact.arith]. rewrite Tc_value.
  replace (3042 / 10 / (3042 / 10)) with 1 by lra. apply sqrt_1.
Qed.

Lemma alpha_at_decreasing (t1 t2 : R) :
  0 <= t1 -> t1 < t2 -> t2 <= 4 * Tc ->
  alpha_at t2 < alpha_at t1.
Proof.
  intros H0 Hlt H4.
  pose proof (sqrt_Tr_increasing t1 t2 H0 Hlt) as Hs.
  assert (H0' : 0 <= t2) by lra.
  pose proof (sqrt_Tr_bounds t2 H0' H4) as [_ Hs2].
  assert (H4' : t1 <= 4 * Tc) by lra.
  pose proof (sqrt_Tr_bounds t1 H0 H4') as [Hs1 _].
  unfold alpha_at.
  set (s1 := sqrt (t1 / Tc)%A) in *. set (s2 := sqrt (t2 / Tc)%A) in *.
  rewrite K_value. unfold pow2, int. cbn [add sub mul lit Exact.arith].
  unfold Q2R; cbn [Qnum Qden]. nra.
Qed.

(** X4: in exact arithmetic, at a fixed molar volume above [b] the
    pressure rises strictly with the temperature, for temperatures from
    zero up to four times the critical temperature (1216.8 K). *)
Theorem pressure_increases_with_temperature (t1 t2 v : R) :
  0 <= t1 ->
  t1 < t2 ->
  t2 <= 4 * Tc ->
  b < v ->
  exists p1 p2 : R,
    calculate_pr_eos [t1; t2] [v] = [[p1]; [p2]] /\ p1 < p2.
Proof.
  intros H0 Hlt H4 Hv.
  exists (pressure_at t1 v), (pressure_at t2 v). split.
  { rewrite calculate_pr_eos_cells. reflexivity. }
  pose proof (alpha_at_decreasing t1 t2 H0 Hlt H4) as Hal.
  pose proof a_scale_pos as Hc. pose proof R_gas_pos as HR.
  destruct (denominators_above_b v Hv) as [H1 H2].
  unfold pressure_at. rewrite !a_at_scale.
  cbn [add sub mul div Exact.arith] in *.
  set (c := Psi * (pow2 R_gas * pow2 Tc) / Pc) in *.
  set (D := v * (v + b) + b * (v - b)) in *.
  assert (HD : 0 < D) by nra.
  assert (E1 : R_gas * t1 / (v - b) < R_gas * t2 / (v - b)).
  { apply Rmult_lt_compat_r; [apply Rinv_0_lt_compat; lra|].
    apply Rmult_lt_compat_l; assumption. }
  assert (E2 : alpha_at t2 * c / D < alpha_at t1 * c / D).
  { apply Rmult_lt_compat_r; [apply Rinv_0_lt_compat; lra|].
    apply Rmult_lt_compat_r; assumption. }
  lra.
Qed.

Lemma pressure_increases_with_temperature_witness :
  exists p1 p2 : R,
    calculate_pr_eos [250; 400] [1] = [[p1]; [p2]] /\ p1 < p2.
Proof.
  apply (pressure_increases_with_temperature 250 400 1).
  - lra.
  - lra.
  - rewrite Tc_value. lra.
  - rewrite b_value. lra.
Defined.

(** X5: in exact arithmetic, for a temperature between zero and four
    times the critical temperature, [alpha] is above 1 below the critical
    temperature, exactly 1 at it, and below 1 above it. *)
Theorem alpha_at_around_critical_temperature (t : R) :
  0 <= t ->
  t <= 4 * Tc ->
  (t < Tc -> 1 < alpha_at t)
  /\ (t = Tc -> alpha_at t = 1)
  /\ (Tc < t -> alpha_at t < 1).
Proof.
  intros H0 H4.
  assert (H1 : alpha_at (Tc : R) = 1).
  { unfold alpha_at. rewrite sqrt_Tr_at_Tc.
    unfold pow2, int. cbn [add sub mul lit Exact.arith].
    unfold Q2R; cbn [Qnum Qden]. field. }
  assert (HTc : 0 <= (Tc : R) <= 4 * Tc) by (rewrite Tc_value; lra).
  split; [|split].
  - intros Hlt. rewrite <- H1. apply alpha_at_decreasing; lra.
  - intros ->. exact H1.
  - intros Hgt. rewrite <- H1. apply alpha_at_decreasing; lra.
Qed.

Lemma alpha_at_around_critical_temperature_witness :
  (295 < Tc -> 1 < alpha_at 295)
  /\ (295 = Tc -> alpha_at 295 = 1)
  /\ (Tc < 295 -> alpha_at 295 < 1).
Proof.
  apply (alpha_at_around_critical_temperature 295).
  - lra.
  - rewrite Tc_value. lra.
Defined.


Lemma sqrt_Tr_200 : (sqrt (int 200 / Tc)%A : R) <= 82 / 100.
Proof.
  cbn [sqrt Exact.arith].
  apply Rle_trans with (R_sqrt.sqrt ((82 / 100) * (82 / 100))).
  - apply sqrt_le_1_alt. exact_arith. lra.
  - rewrite sqrt_square; lra.
Qed.

Lemma pressure_at_200_K_negative :
  pressure_at (int 200 : R) (dec 6 100000) < 0.
Proof.
  pose proof sqrt_Tr_200 as Hs.
  unfold pressure_at, a_at, alpha_at.
  set (s := sqrt _) in *.
  exact_arith.
  set (y := 1 * / 1 + _).
  assert (Hy : 1 + 71224375872 / 100000000000 * (1 - 82 / 100) <= y).
  { unfold y. lra. }
  assert (Hz : (1 + 71224375872 / 100000000000 * (1 - 82 / 100)) *
               (1 + 71224375872 / 100000000000 * (1 - 82 / 100)) <= y * y).
  { apply Rmult_le_compat; lra. }
  set (z := y * y) in *. clearbody z. clear Hy y Hs s.
  lra.
Qed.

(** X6: the evaluator can return a pressure below zero for a
    temperature above zero and a molar volume above [b]: at 200 K and
    6e-5 m3/mol it does, in binary64 and in exact arithmetic. *)
Theorem pressure_can_be_negative :
  (lt (int 0) (int 200) = true
   /\ lt b (dec 6 100000) = true
   /\ exists p : float,
        calculate_pr_eos [int 200] [dec 6 100000] = [[p]]
        /\ lt p (int 0) = true)
  /\ ((0 < int 200)%R
      /\ ((b : R) < dec 6 100000)%R
      /\ exists p : R,
           calculate_pr_eos [int 200] [dec 6 100000] = [[p]] /\ (p < 0)%R).
Proof.
  split.
  - split; [vm_compute; reflexivity|]. split; [vm_compute; reflexivity|].
    exists (pressure_at (int 200) (dec 6 100000)).
    split; vm_compute; reflexivity.
  - split; [|split].
    + unfold int. cbn [lit Exact.arith]. unfold Q2R; cbn [Qnum Qden]. lra.
    + rewrite b_value. unfold dec. cbn [lit Exact.arith].
      unfold Q2R; cbn [Qnum Qden]. lra.
    + exists (pressure_at (int 200) (dec 6 100000)). split.
      * rewrite calculate_pr_eos_cells. reflexivity.
      * exact pressure_at_200_K_negative.
Qed.

End ExactExtras.

(** ** The store: other shapes, errors and [main] *)

Section StoreExtras.

Context {F : Type} `{Arith F}.

Lemma holds_grows (s s' : state F) (a : ndarray) (sh : shape) (m : mat F) :
  (exists fresh, heap s' = heap s ++ fresh) ->
  holds s a sh m -> holds s' a sh m.
Proof.
  intros [fresh Hheap] (Hd & Hn & Hr & Hc).
  repeat split; auto.
  rewrite Hheap, nth_error_app1; auto.
  apply nth_error_Some; congruence.
Qed.

Lemma returns_logs {A : Type} (s : state F) (c : M F A) (Q : A -> state F -> Prop) :
  returns s c Q -> logs s c [] Q.
Proof.
  intros (a & s' & Hc & [Hh Ho] & HQ).
  exists a, s'. repeat split; auto. now rewrite app_nil_r.
Qed.

Lemma logs_bind {A B : Type} (s : state F) (c : M F A) (k : A -> M F B)
    (e1 e2 : list (event F)) (Q : A -> state F -> Prop) (Q' : B -> state F -> Prop) :
  logs s c e1 Q ->
  (forall a s', (exists fresh, heap s' = heap s ++ fresh) -> Q a s' ->
                logs s' (k a) e2 Q') ->
  logs s (bind c k) (e1 ++ e2) Q'.
Proof.
  intros (a & s' & Hc & Hh & Ho & HQ) Hk.
  destruct (Hk a s' Hh HQ) as (b' & s'' & Hk' & Hh' & Ho' & HQ').
  exists b', s''. unfold bind. rewrite Hc.
  split; [exact Hk'|]. split; [|split; [|exact HQ']].
  - destruct Hh as [f1 H1], Hh' as [f2 H2].
    exists (f1 ++ f2). now rewrite H2, H1, app_assoc.
  - now rewrite Ho', Ho, app_assoc.
Qed.

(** A statement that only reads the store. *)
Lemma logs_read {A B : Type} (s : state F) (c : M F A) (a : A) (k : A -> M F B)
    (evs : list (event F)) (Q : B -> state F -> Prop) :
  c s = (Ok a, s) -> logs s (k a) evs Q -> logs s (bind c k) evs Q.
Proof.
  intros Hc (b' & s' & Hk & Hrest). exists b', s'.
  unfold bind. rewrite Hc. now split.
Qed.

Lemma load_value (s : state F) (a : ndarray) (sh : shape) (m : mat F) :
  holds s a sh m -> load a s = (Ok (concat m), s).
Proof.
  intros (_ & Hn & _). unfold load. now rewrite (nth_error_nth _ _ _ Hn).
Qed.

Lemma np_row_value (s : state F) (a : ndarray) (sh : shape) (m : mat F) (i : nat) :
  holds s a sh m -> np_row a i s = (Ok (nth i m []), s).
Proof.
  intros Ha. destruct (holds_view _ _ _ _ Ha) as [Hd Hv].
  unfold np_row, bind. rewrite (load_value _ _ _ _ Ha).
  unfold ret. rewrite Hd. f_equal. f_equal.
  destruct Ha as (_ & Hn & _). rewrite (nth_error_nth _ _ _ Hn) in Hv.
  now rewrite Hv.
Qed.

Lemma emit_logs (s : state F) (e : event F) :
  logs s (emit e) [e] (fun _ s' => heap s' = heap s).
Proof.
  eexists tt, _. split; [reflexivity|]. simpl.
  repeat split. exists []. now rewrite app_nil_r.
Qed.

Lemma holds_same_heap (s s' : state F) (a : ndarray) (sh : shape) (m : mat F) :
  heap s' = heap s -> holds s a sh m -> holds s' a sh m.
Proof.
  intros Hh (Hd & Hn & Hr & Hc). repeat split; auto. now rewrite Hh.
Qed.

Lemma alloc_holds_vec (s : state F) (n : nat) (u : vec F) :
  length u = n ->
  returns s (alloc (Sh1 n) u) (fun a s' => holds s' a (Sh1 n) [u]).
Proof.
  intros Hn. rewrite <- (app_nil_r u) at 1.
  apply (alloc_holds s (Sh1 n) [u]); [reflexivity|].
  repeat constructor. exact Hn.
Qed.

(** Every line of the plot: the densities against one row. *)
Lemma plot_rows_logs (str : F -> String.string) (s : state F)
    (dA pA : ndarray) (n r c : nat)
    (d : vec F) (m : mat F) (ts : list F) (i : nat) :
  holds s dA (Sh1 n) [d] ->
  holds s pA (Sh2 r c) m ->
  logs s (plot_rows str dA pA i ts) (plot_events str d m i ts)
       (fun _ s' => heap s' = heap s).
Proof.
  revert s i. induction ts as [|T rest IH]; intros s i Hd Hp.
  - exists tt, s. repeat split; simpl.
    + exists []. now rewrite app_nil_r.
    + now rewrite app_nil_r.
  - simpl plot_rows.
    eapply logs_read; [apply (load_value _ _ _ _ Hd)|].
    eapply logs_read; [apply (np_row_value _ _ _ _ i Hp)|].
    simpl concat. rewrite app_nil_r.
    change (plot_events str d m i (T :: rest))
      with ([Plot d (nth i m []) "o"%string "-"%string
               (String.append (str T) " K"%string)]
            ++ plot_events str d m (S i) rest).
    eapply logs_bind; [apply emit_logs|].
    intros u0 s' _ Hs'. cbv beta in Hs'.
    destruct (IH s' (S i)) as (u & s'' & Hrun & Hh & Ho & Hq).
    + now apply holds_same_heap with s.
    + now apply holds_same_heap with s.
    + exists u, s''. repeat split; auto. congruence.
Qed.


Ltac carry_over Hg :=
  repeat match goal with
         | Hx : holds ?s _ _ _ |- _ =>
             match type of Hg with
             | (exists fresh, heap _ = heap s ++ fresh) =>
                 apply (holds_grows _ _ _ _ _ Hg) in Hx
             end
         end.

Tactic Notation "quiet" uconstr(lem) :=
  eapply logs_bind;
  [ apply returns_logs; eapply lem; try eassumption
  | let a := fresh "a" in
    let s' := fresh "s" in
    let Hg := fresh "Hg" in
    let Ha := fresh "Ha" in
    intros a s' Hg Ha; cbv beta in Ha; carry_over Hg; clear Hg ].

Ltac loud :=
  eapply logs_bind;
  [ apply emit_logs
  | let a := fresh "u" in
    let s' := fresh "s" in
    let Hg := fresh "Hg" in
    let Ha := fresh "Ha" in
    intros a s' Hg Ha; cbv beta in Ha; carry_over Hg; clear Hg Ha ].

Lemma main_logs (str : F -> String.string) (s : state F) :
  logs s (main str)
    ([] ++ [] ++ [] ++ [] ++ [] ++ [Figure 10 7]
     ++ plot_events str densities_kg_m3 pressure_MPa 0 temperatures_K
     ++ [Title "CO2 Pressure vs. Density (Peng-Robinson EOS)"%string]
     ++ [Xlabel "Density (kg/m³)"%string]
     ++ [Ylabel "Pressure (MPa)"%string]
     ++ [Legend] ++ [Grid true] ++ [Ylim (int 0)]
     ++ [Savefig "co2_eos_plot.png"%string 300]
     ++ [Printed "Plot saved as co2_eos_plot.png"%string]
     ++ [Shown])
    (fun _ _ => True).
Proof.
  unfold main.
  eapply logs_bind.
  { apply returns_logs.
    apply (alloc_holds_vec s 50 densities_kg_m3). reflexivity. }
  intros dA s1 _ Hd. cbv beta in Hd.
  eapply logs_bind.
  { apply returns_logs.
    apply (alloc_holds_vec s1 4 temperatures_K). reflexivity. }
  intros tA s2 Hg Ht. cbv beta in Ht. carry_over Hg. clear Hg.
  quiet np_scalar_holds_vec.
  eapply logs_bind.
  { apply returns_logs.
    apply (exec_calculate_pr_eos_returns s0 tA a temperatures_K
             molar_volumes_m3_mol); assumption. }
  intros pA s3 Hg Hp. cbv beta in Hp. carry_over Hg. clear Hg.
  quiet np_scalar_holds.
  loud.
  eapply logs_read; [apply (load_value _ _ _ _ Ht)|].
  change (concat [temperatures_K]) with (@temperatures_K F _).
  eapply logs_bind.
  { eapply plot_rows_logs; eassumption. }
  intros u' s6 Hg _. carry_over Hg. clear Hg.
  do 8 loud.
  eexists tt, _. split; [reflexivity|]. simpl.
  repeat split. exists []. now rewrite app_nil_r.
Qed.


(** *** Arrays of other shapes *)

Lemma length_concat_uniform (m : mat F) (r c : nat) :
  length m = r ->
  Forall (fun row => length row = c) m ->
  length (concat m) = r * c.
Proof.
  intros <- Hc. induction Hc as [|row m Hrow _ IH]; simpl; [reflexivity|].
  rewrite length_app, IH, Hrow. reflexivity.
Qed.

Lemma np_reshape_col_holds_mat (s : state F) (a : ndarray) (r c : nat)
    (m : mat F) (u : vec F) :
  holds s a (Sh2 r c) m ->
  concat m = u ->
  returns s (np_reshape_col a)
    (fun a' s' => holds s' a' (Sh2 (r * c) 1) (reshape_col u)).
Proof.
  intros (Hd & Hn & Hr & Hc) <-.
  eexists _, _. split; [reflexivity|]. split; [apply extends_refl|].
  repeat split; simpl.
  - now rewrite Hd.
  - now rewrite Hn, concat_reshape_col.
  - unfold reshape_col. rewrite length_map.
    now apply length_concat_uniform.
  - unfold reshape_col. apply Forall_map, Forall_forall. reflexivity.
Qed.

Ltac carry_on E :=
  repeat match goal with
         | Hx : holds ?s _ _ _ |- _ =>
             match type of E with
             | extends s _ => apply (holds_extends _ _ _ _ _ E) in Hx
             end
         end.

Tactic Notation "step" uconstr(lem) :=
  eapply returns_bind;
  [ eapply lem; try eassumption
  | let a := fresh "a" in
    let s' := fresh "s" in
    let E := fresh "E" in
    let Ha := fresh "Ha" in
    intros a s' E Ha; cbv beta in Ha; carry_on E; clear E ].

Lemma exec_flattens (s : state F) (tK mV : ndarray) (r c : nat)
    (m : mat F) (V : vec F) :
  holds s tK (Sh2 r c) m ->
  holds s mV (Sh1 (length V)) [V] ->
  returns s (exec_calculate_pr_eos tK mV)
    (fun g s' =>
       holds s' g (Sh2 (r * c) (length V)) (calculate_pr_eos (concat m) V)).
Proof.
  intros HT HV. unfold exec_calculate_pr_eos, calculate_pr_eos.
  step np_scalar_holds.
  step (np_reshape_col_holds_mat _ _ _ _ _
          (vmap (fun t => (t / Tc)%A) (concat m))).
  { unfold mmap, vmap. symmetry. apply concat_map. }
  do 8 step np_scalar_holds.
  step (np_reshape_col_holds_mat _ _ _ _ _ (concat m)).
  { reflexivity. }
  step np_scalar_holds.
  step np_scalar_holds_vec.
  step np_binop_col_vec.
  step np_scalar_holds_vec.
  step np_binop_vec_vec.
  do 2 step np_scalar_holds_vec.
  step np_binop_vec_vec.
  step np_binop_col_vec.
  eapply np_binop_mat_mat; eassumption.
Qed.

(** *** Shapes that do not meet *)

Lemma raises_after {A B : Type} (s : state F) (c : M F A) (k : A -> M F B)
    (Q : A -> state F -> Prop) (e : exn) :
  returns s c Q ->
  (forall a s', extends s s' -> Q a s' -> raises s' (k a) e) ->
  raises s (bind c k) e.
Proof.
  intros (a & s' & Hc & He & HQ) Hk.
  destruct (Hk a s' He HQ) as (s'' & Hk' & He').
  exists s''. unfold bind. rewrite Hc. split; [exact Hk'|].
  now apply extends_trans with s'.
Qed.

Lemma raises_bind {A B : Type} (s : state F) (c : M F A) (k : A -> M F B)
    (e : exn) :
  raises s c e -> raises s (bind c k) e.
Proof.
  intros (s' & Hc & He). exists s'. unfold bind. now rewrite Hc.
Qed.

Lemma np_binop_raises (s : state F) (op : F -> F -> F) (x y : ndarray)
    (shx shy : shape) (mx my : mat F) :
  holds s x shx mx -> holds s y shy my ->
  broadcast_shape shx shy = None ->
  raises s (np_binop op x y) ValueError.
Proof.
  intros (Hdx & _) (Hdy & _) Hsh.
  exists s. unfold np_binop. rewrite Hdx, Hdy, Hsh.
  split; [reflexivity | apply extends_refl].
Qed.

Lemma bdim_none (m n : nat) : m <> n -> m <> 1 -> n <> 1 -> bdim m n = None.
Proof.
  intros H1 H2 H3. unfold bdim.
  destruct (Nat.eqb_spec m n); [contradiction|].
  destruct (Nat.eqb_spec m 1); [contradiction|].
  destruct (Nat.eqb_spec n 1); [contradiction|]. reflexivity.
Qed.

Tactic Notation "before" uconstr(lem) :=
  eapply raises_after;
  [ eapply lem; try eassumption
  | let a := fresh "a" in
    let s' := fresh "s" in
    let E := fresh "E" in
    let Ha := fresh "Ha" in
    intros a s' E Ha; cbv beta in Ha; carry_on E; clear E ].

Lemma exec_raises (s : state F) (tK mV : ndarray) (T : vec F) (p q : nat)
    (m : mat F) :
  holds s tK (Sh1 (length T)) [T] ->
  holds s mV (Sh2 p q) m ->
  length T <> p -> length T <> 1 -> p <> 1 ->
  raises s (exec_calculate_pr_eos tK mV) ValueError.
Proof.
  intros HT HV H1 H2 H3. unfold exec_calculate_pr_eos.
  before np_scalar_holds_vec.
  before np_reshape_col_holds.
  do 8 before np_scalar_holds.
  before np_reshape_col_holds.
  do 2 before np_scalar_holds.
  apply raises_bind.
  eapply np_binop_raises; try eassumption.
  unfold broadcast_shape; simpl. now rewrite bdim_none.
Qed.

(** *** One row of molar volumes for each temperature *)

Lemma Forall_map2_rows (op : F -> F -> F) (q : nat) (mx my : mat F) :
  Forall (fun row => length row = 1) mx ->
  Forall (fun row => length row = q) my ->
  Forall (fun row => length row = q) (map2 (bcast_row op) mx my).
Proof.
  intros Hx; revert my.
  induction Hx as [|r mx Hr _ IH]; intros my Hy; [constructor|].
  destruct Hy as [|r' my Hr' Hy]; [constructor|]; simpl map2.
  constructor; [|now apply IH].
  rewrite bcast_row_length; assumption.
Qed.

Lemma np_binop_col_mat (s : state F) (op : F -> F -> F) (x y : ndarray)
    (n q : nat) (mx my : mat F) :
  holds s x (Sh2 n 1) mx -> holds s y (Sh2 n q) my ->
  returns s (np_binop op x y)
    (fun a s' => holds s' a (Sh2 n q) (bcast_rows op mx my)).
Proof.
  intros Hx Hy.
  pose proof Hx as (_ & _ & Hxr & Hxc). pose proof Hy as (_ & _ & Hyr & Hyc).
  simpl in Hxr, Hxc, Hyr, Hyc.
  eapply np_binop_returns; eauto.
  - unfold broadcast_shape; simpl. now rewrite bdim_same, bdim_one_l.
  - unfold broadcast_op, bcast_rows; simpl.
    rewrite (stretch_id n mx Hxr), (stretch_id n my Hyr).
    apply map2_ext_Forall
      with (P := fun row => length row = 1) (Q := fun row => length row = q);
      try assumption.
    intros ra rb Ha Hb.
    destruct ra as [|x0 [|y0 ra]]; try discriminate.
    rewrite (stretch_id q rb Hb). simpl. rewrite <- Hb.
    apply map2_repeat_l.
  - unfold bcast_rows; simpl. rewrite map2_length; congruence.
  - now apply Forall_map2_rows.
Qed.

Lemma paired_grid (T : vec F) (m : mat F) :
  mzip sub
    (bcast_rows div
       (mmap (fun t => (R_gas * t)%A) (reshape_col T))
       (mmap (fun v => (v - b)%A) m))
    (bcast_rows div
       (mmap (fun x => (x / Pc)%A)
          (mmap (fun x => (x * (pow2 R_gas * pow2 Tc))%A)
             (mmap (fun x => (Psi * x)%A)
                (mmap pow2
                   (mmap (fun x => (int 1 + x)%A)
                      (mmap (fun x => (K * x)%A)
                         (mmap (fun x => (int 1 - x)%A)
                            (mmap sqrt
                               (reshape_col
                                  (vmap (fun t => (t / Tc)%A) T))))))))))
       (mzip add
          (mzip mul m (mmap (fun v => (v + b)%A) m))
          (mmap (fun x => (b * x)%A) (mmap (fun v => (v - b)%A) m))))
  = map2 (fun t row => map (fun v => pressure_at t v) row) T m.
Proof.
  unfold mzip, bcast_rows, mmap, reshape_col, vmap.
  revert m. induction T as [|t T IH]; intros [|row m]; try reflexivity.
  simpl. rewrite IH. f_equal.
  clear IH. induction row as [|v row IHrow]; simpl; [reflexivity|].
  now rewrite IHrow.
Qed.

Lemma exec_pairs (s : state F) (tK mV : ndarray) (T : vec F) (q : nat)
    (m : mat F) :
  holds s tK (Sh1 (length T)) [T] ->
  holds s mV (Sh2 (length T) q) m ->
  returns s (exec_calculate_pr_eos tK mV)
    (fun g s' =>
       holds s' g (Sh2 (length T) q)
         (map2 (fun t row => map (fun v => pressure_at t v) row) T m)).
Proof.
  intros HT HV. unfold exec_calculate_pr_eos.
  rewrite <- paired_grid.
  step np_scalar_holds_vec.
  step np_reshape_col_holds.
  do 8 step np_scalar_holds.
  step np_reshape_col_holds.
  do 2 step np_scalar_holds.
  step np_binop_col_mat.
  step np_scalar_holds.
  step np_binop_mat_mat.
  do 2 step np_scalar_holds.
  step np_binop_mat_mat.
  step np_binop_col_mat.
  eapply np_binop_mat_mat; eassumption.
Qed.

(** *** The result is a new array *)

Lemma np_binop_base (s s' : state F) (op : F -> F -> F)
    (x y a : ndarray) :
  np_binop op x y s = (Ok a, s') -> base a = length (heap s).
Proof.
  unfold np_binop. destruct (broadcast_shape (dims x) (dims y)).
  - unfold bind, load, alloc. intros [= <- _]. reflexivity.
  - discriminate.
Qed.

Lemma length_heap_extends (s s' : state F) (n : nat) :
  extends s s' -> n <= length (heap s) -> n <= length (heap s').
Proof.
  intros [[fresh ->] _] Hn. rewrite length_app. lia.
Qed.

Lemma np_binop_mat_mat_fresh (s : state F) (op : F -> F -> F) (x y : ndarray)
    (n k l : nat) (mx my : mat F) :
  holds s x (Sh2 n k) mx -> holds s y (Sh2 n k) my ->
  l <= length (heap s) ->
  returns s (np_binop op x y) (fun a _ => l <= base a).
Proof.
  intros Hx Hy Hl.
  destruct (np_binop_mat_mat s op x y n k mx my Hx Hy)
    as (g & s' & Hrun & Hext & _).
  exists g, s'. split; [exact Hrun|]. split; [exact Hext|].
  now rewrite (np_binop_base _ _ _ _ _ _ Hrun).
Qed.

Tactic Notation "step_on" uconstr(lem) ident(Hlen) :=
  eapply returns_bind;
  [ eapply lem; try eassumption
  | let a := fresh "a" in
    let s' := fresh "s" in
    let E := fresh "E" in
    let Ha := fresh "Ha" in
    intros a s' E Ha; cbv beta in Ha; carry_on E;
    apply (length_heap_extends _ _ _ E) in Hlen; clear E ].

Lemma exec_fresh (s : state F) (tK mV : ndarray) (T V : vec F) :
  holds s tK (Sh1 (length T)) [T] ->
  holds s mV (Sh1 (length V)) [V] ->
  returns s (exec_calculate_pr_eos tK mV)
    (fun g s' => length (heap s) <= base g).
Proof.
  intros HT HV. unfold exec_calculate_pr_eos.
  assert (Hlen : length (heap s) <= length (heap s)) by lia.
  revert Hlen. generalize (length (heap s)) at 1 3. intros n Hlen.
  step_on np_scalar_holds_vec Hlen.
  step_on np_reshape_col_holds Hlen.
  do 8 step_on np_scalar_holds Hlen.
  step_on np_reshape_col_holds Hlen.
  step_on np_scalar_holds Hlen.
  step_on np_scalar_holds_vec Hlen.
  step_on np_binop_col_vec Hlen.
  step_on np_scalar_holds_vec Hlen.
  step_on np_binop_vec_vec Hlen.
  do 2 step_on np_scalar_holds_vec Hlen.
  step_on np_binop_vec_vec Hlen.
  step_on np_binop_col_vec Hlen.
  eapply np_binop_mat_mat_fresh; eassumption.
Qed.

End StoreExtras.

(** ** The evaluator and [main] on the store *)

(** X7: a two-dimensional temperature array of [r] rows and [c] columns
    is flattened row by row: with a one-axis array of molar volumes the
    evaluator returns the grid of the [r * c] temperatures, [r * c] rows
    of [NV] columns, and raises nothing. *)
Theorem exec_calculate_pr_eos_flattens_temperatures {F : Type} `{Arith F}
    (s : state F) (tK mV : ndarray) (r c : nat) (m : mat F) (V : vec F) :
  holds s tK (Sh2 r c) m ->
  holds s mV (Sh1 (length V)) [V] ->
  exists (g : ndarray) (s' : state F),
    exec_calculate_pr_eos tK mV s = (Ok g, s')
    /\ holds s' g (Sh2 (r * c) (length V)) (calculate_pr_eos (concat m) V).
Proof.
  intros HT HV.
  destruct (exec_flattens s tK mV r c m V HT HV) as (g & s' & Hrun & _ & Hg).
  now exists g, s'.
Qed.

Lemma exec_calculate_pr_eos_flattens_temperatures_witness :
  let s : state float :=
    {| heap := [[int 295; int 325; int 345; int 375]; [dec 3 10000; dec 4 10000]];
       out := [] |} in
  exists (g : ndarray) (s' : state float),
    exec_calculate_pr_eos {| base := 0; dims := Sh2 2 2 |}
                          {| base := 1; dims := Sh1 2 |} s = (Ok g, s')
    /\ holds s' g (Sh2 (2 * 2) 2)
         (calculate_pr_eos
            (concat [[int 295; int 325]; [int 345; int 375]])
            [dec 3 10000; dec 4 10000]).
Proof.
  cbv zeta.
  apply (exec_calculate_pr_eos_flattens_temperatures
           {| heap := [[int 295; int 325; int 345; int 375];
                       [dec 3 10000; dec 4 10000]];
              out := [] |}
           {| base := 0; dims := Sh2 2 2 |} {| base := 1; dims := Sh1 2 |}
           2 2 [[int 295; int 325]; [int 345; int 375]]
           [dec 3 10000; dec 4 10000]).
  - repeat split; repeat constructor.
  - repeat split; repeat constructor.
Defined.

(** X8: with a one-axis array of [NT] temperatures and a
    two-dimensional array of molar volumes of [p] rows, where [p] is
    neither [NT] nor 1 and [NT] is not 1, the evaluator raises
    [ValueError] (the shapes cannot be broadcast together); it has then
    written nothing to the log and changed no buffer of the store. *)
Theorem exec_calculate_pr_eos_shape_mismatch {F : Type} `{Arith F}
    (s : state F) (tK mV : ndarray) (T : vec F) (p q : nat) (m : mat F) :
  holds s tK (Sh1 (length T)) [T] ->
  holds s mV (Sh2 p q) m ->
  length T <> p ->
  length T <> 1 ->
  p <> 1 ->
  exists s' : state F,
    exec_calculate_pr_eos tK mV s = (Raise ValueError, s')
    /\ (exists fresh, heap s' = heap s ++ fresh)
    /\ out s' = out s.
Proof.
  intros HT HV H1 H2 H3.
  destruct (exec_raises s tK mV T p q m HT HV H1 H2 H3)
    as (s' & Hrun & Hheap & Hout).
  now exists s'.
Qed.

Lemma exec_calculate_pr_eos_shape_mismatch_witness :
  let s : state float :=
    {| heap := [[int 295; int 325];
                [dec 3 10000; dec 4 10000; dec 5 10000]];
       out := [] |} in
  exists s' : state float,
    exec_calculate_pr_eos {| base := 0; dims := Sh1 2 |}
                          {| base := 1; dims := Sh2 3 1 |} s
    = (Raise ValueError, s')
    /\ (exists fresh, heap s' = heap s ++ fresh)
    /\ out s' = out s.
Proof.
  cbv zeta.
  apply (exec_calculate_pr_eos_shape_mismatch
           {| heap := [[int 295; int 325];
                       [dec 3 10000; dec 4 10000; dec 5 10000]];
              out := [] |}
           {| base := 0; dims := Sh1 2 |} {| base := 1; dims := Sh2 3 1 |}
           [int 295; int 325] 3 1
           [[dec 3 10000]; [dec 4 10000]; [dec 5 10000]]).
  - repeat split; repeat constructor.
  - repeat split; repeat constructor.
  - simpl; lia.
  - simpl; lia.
  - lia.
Defined.

(** X9: with a one-axis array of [NT] temperatures and a
    two-dimensional array of molar volumes of [NT] rows, each temperature
    is paired with its own row of molar volumes: cell [i][j] of the grid
    is the pressure of [T[i]] and [V[i][j]]. *)
Theorem exec_calculate_pr_eos_pairs_rows {F : Type} `{Arith F}
    (s : state F) (tK mV : ndarray) (T : vec F) (q : nat) (m : mat F) :
  holds s tK (Sh1 (length T)) [T] ->
  holds s mV (Sh2 (length T) q) m ->
  exists (g : ndarray) (s' : state F),
    exec_calculate_pr_eos tK mV s = (Ok g, s')
    /\ holds s' g (Sh2 (length T) q)
         (map2 (fun t row => map (fun v => pressure_at t v) row) T m).
Proof.
  intros HT HV.
  destruct (exec_pairs s tK mV T q m HT HV) as (g & s' & Hrun & _ & Hg).
  now exists g, s'.
Qed.

Lemma exec_calculate_pr_eos_pairs_rows_witness :
  let s : state float :=
    {| heap := [[int 295; int 325];
                [dec 3 10000; dec 4 10000; dec 5 10000; dec 6 10000]];
       out := [] |} in
  exists (g : ndarray) (s' : state float),
    exec_calculate_pr_eos {| base := 0; dims := Sh1 2 |}
                          {| base := 1; dims := Sh2 2 2 |} s = (Ok g, s')
    /\ holds s' g (Sh2 2 2)
         (map2 (fun t row => map (fun v => pressure_at t v) row)
            [int 295; int 325]
            [[dec 3 10000; dec 4 10000]; [dec 5 10000; dec 6 10000]]).
Proof.
  cbv zeta.
  apply (exec_calculate_pr_eos_pairs_rows
           {| heap := [[int 295; int 325];
                       [dec 3 10000; dec 4 10000; dec 5 10000; dec 6 10000]];
              out := [] |}
           {| base := 0; dims := Sh1 2 |} {| base := 1; dims := Sh2 2 2 |}
           [int 295; int 325] 2
           [[dec 3 10000; dec 4 10000]; [dec 5 10000; dec 6 10000]]).
  - repeat split; repeat constructor.
  - repeat split; repeat constructor.
Defined.

(** X10: the calls [main] makes.  In any arithmetic and from any store
    the array computations of [main] raise nothing (the shapes it builds
    always broadcast) and change no buffer that was in the store, and
    [main] then calls the plotting library and [print] exactly so, in this
    order: the figure of 10 by 7; one line for each of the temperatures
    295, 325, 345 and 375, which plots the 50 densities (not the molar
    volumes) against that temperature's row of pressures divided by 1e6,
    with marker 'o', line style '-' and the label made of the temperature
    as Python formats it followed by " K"; title, axis labels, legend,
    grid switched on and the lower limit 0; the figure saved as
    co2_eos_plot.png at 300 dpi; the message printed; the figure shown.
    The grid has 4 rows, each as long as the densities, so every line has
    as many ordinates as abscissas.  In binary64 the four labels are
    "295 K", "325 K", "345 K" and "375 K".  What the plotting library
    does with these calls, a failure to write the file included, is
    outside the model. *)
Theorem main_runs :
  (forall (F : Type) (A : Arith F) (str : F -> String.string) (s : state F),
     exists s' : state F,
       main str s = (Ok tt, s')
       /\ (exists fresh, heap s' = heap s ++ fresh)
       /\ out s'
          = out s ++
            [Figure 10 7;
             Plot densities_kg_m3 (nth 0 pressure_MPa []) "o"%string "-"%string
                  (String.append (str (int 295)) " K"%string);
             Plot densities_kg_m3 (nth 1 pressure_MPa []) "o"%string "-"%string
                  (String.append (str (int 325)) " K"%string);
             Plot densities_kg_m3 (nth 2 pressure_MPa []) "o"%string "-"%string
                  (String.append (str (int 345)) " K"%string);
             Plot densities_kg_m3 (nth 3 pressure_MPa []) "o"%string "-"%string
                  (String.append (str (int 375)) " K"%string);
             Title "CO2 Pressure vs. Density (Peng-Robinson EOS)"%string;
             Xlabel "Density (kg/m³)"%string;
             Ylabel "Pressure (MPa)"%string;
             Legend; Grid true; Ylim (int 0);
             Savefig "co2_eos_plot.png"%string 300;
             Printed "Plot saved as co2_eos_plot.png"%string;
             Shown]
       /\ length (pressure_MPa : mat F) = 4
       /\ Forall (fun row => length row = length (densities_kg_m3 : vec F))
                 (pressure_MPa : mat F))
  /\ map (fun T => String.append (Binary64.str T) " K"%string) temperatures_K
     = ["295 K"; "325 K"; "345 K"; "375 K"]%string.
Proof.
  split; [|vm_compute; reflexivity].
  intros F A str s.
  destruct (main_logs str s) as ([] & s' & Hrun & Hheap & Hout & _).
  exists s'. split; [exact Hrun|]. split; [exact Hheap|].
  split; [exact Hout|]. split.
  - unfold pressure_MPa, pressure_Pa, mmap.
    rewrite length_map. apply calculate_pr_eos_rows.
  - unfold pressure_MPa, pressure_Pa, mmap.
    apply Forall_map.
    eapply Forall_impl; [|apply calculate_pr_eos_columns].
    intros row Hrow. cbv beta. rewrite length_map, Hrow.
    unfold molar_volumes_m3_mol, vmap. apply length_map.
Qed.

(** X11: the array the evaluator returns is a new one: its buffer was
    not in the store before the call, so it is neither of the two
    argument arrays nor a view of one of them. *)
Theorem exec_calculate_pr_eos_returns_new_array {F : Type} `{Arith F}
    (s : state F) (tK mV : ndarray) (T V : vec F) :
  holds s tK (Sh1 (length T)) [T] ->
  holds s mV (Sh1 (length V)) [V] ->
  exists (g : ndarray) (s' : state F),
    exec_calculate_pr_eos tK mV s = (Ok g, s')
    /\ length (heap s) <= base g
    /\ base g <> base tK
    /\ base g <> base mV.
Proof.
  intros HT HV.
  destruct (exec_fresh s tK mV T V HT HV) as (g & s' & Hrun & _ & Hg).
  exists g, s'. split; [exact Hrun|]. split; [exact Hg|].
  destruct HT as (_ & HnT & _), HV as (_ & HnV & _).
  assert (base tK < length (heap s)) by (apply nth_error_Some; congruence).
  assert (base mV < length (heap s)) by (apply nth_error_Some; congruence).
  split; lia.
Qed.

Lemma exec_calculate_pr_eos_returns_new_array_witness :
  let s : state float :=
    {| heap := [[int 295; int 325]; [dec 3 10000]]; out := [] |} in
  let tK := {| base := 0; dims := Sh1 2 |} in
  let mV := {| base := 1; dims := Sh1 1 |} in
  exists (g : ndarray) (s' : state float),
    exec_calculate_pr_eos tK mV s = (Ok g, s')
    /\ length (heap s) <= base g
    /\ base g <> base tK
    /\ base g <> base mV.
Proof.
  cbv zeta.
  apply (exec_calculate_pr_eos_returns_new_array
           {| heap := [[int 295; int 325]; [dec 3 10000]]; out := [] |}
           {| base := 0; dims := Sh1 2 |} {| base := 1; dims := Sh1 1 |}
           [int 295; int 325] [dec 3 10000]).
  - apply (holds_vec_at _ _ _ 0 [int 295; int 325]). reflexivity.
  - apply (holds_vec_at _ _ _ 1 [dec 3 10000]). reflexivity.
Defined.

(** * The warnings of a call *)

(** The evaluator in binary64 with numpy's floating-point warnings: a
    call does to the store what the store model says, and the warnings it
    issues are those of [Warned.issued]. *)

(** ** Statements with warnings *)

Lemma shown_app (w1 w2 : list Warned.warning) p :
  Warned.shown (w1 ++ w2) p = Warned.shown w2 (Warned.shown w1 p).
Proof. apply fold_left_app. Qed.

Lemma warned_bind {A B : Type} (s : Warned.state) (c : Warned.W A)
    (k : A -> Warned.W B) (w1 w2 : list Warned.warning)
    (Q : A -> state float -> Prop) (Q' : B -> state float -> Prop) :
  Warned.returns s c w1 Q ->
  (forall a s', extends (Warned.store s) (Warned.store s') ->
                Q a (Warned.store s') -> Warned.returns s' (k a) w2 Q') ->
  Warned.returns s (Warned.bind c k) (w1 ++ w2) Q'.
Proof.
  intros (a & s' & Hc & He & Hw & HQ) Hk.
  destruct (Hk a s' He HQ) as (b' & s'' & Hk' & He' & Hw' & HQ').
  exists b', s''. unfold Warned.bind. rewrite Hc.
  split; [exact Hk'|]. split; [now apply extends_trans with (Warned.store s')|].
  split; [|exact HQ'].
  now rewrite shown_app, <- Hw.
Qed.

Lemma warned_lift {A : Type} (s : Warned.state) (c : M float A)
    (Q : A -> state float -> Prop) :
  returns (Warned.store s) c Q -> Warned.returns s (Warned.lift c) [] Q.
Proof.
  intros (a & st & Hc & He & HQ).
  eexists a, _. unfold Warned.lift. rewrite Hc.
  split; [reflexivity|]. split; [exact He|]. split; [reflexivity|exact HQ].
Qed.

Lemma warned_weaken {A : Type} (s : Warned.state) (c : Warned.W A)
    (w w' : list Warned.warning) (Q Q' : A -> state float -> Prop) :
  Warned.returns s c w Q ->
  w = w' ->
  (forall a st, Q a st -> Q' a st) ->
  Warned.returns s c w' Q'.
Proof.
  intros (a & s' & Hc & He & Hw & HQ) <- HQQ.
  exists a, s'. split; [exact Hc|]. split; [exact He|].
  split; [exact Hw|auto].
Qed.

Lemma elementwise_returns (s : Warned.state) (l : nat) (u : Warned.ufunc)
    (f : float -> float) (fl : float -> list Warned.kind)
    (a : ndarray) (sh : shape) (m : mat float) :
  holds (Warned.store s) a sh m ->
  Warned.returns s (Warned.elementwise l u f fl a)
    (Warned.warnings l u (map fl (concat m)))
    (fun a' st => holds st a' sh (mmap f m)).
Proof.
  intros Ha.
  destruct (np_scalar_holds _ f a sh m Ha) as (a' & st & Hrun & He & Hh).
  pose (p := Warned.shown (Warned.warnings l u (map fl (concat m)))
               (Warned.stderr s, Warned.registry s)).
  assert (E : Warned.elementwise l u f fl a s
              = (Ok a', {| Warned.store := st; Warned.stderr := fst p;
                           Warned.registry := snd p |})).
  { unfold Warned.elementwise, Warned.bind, Warned.lift, Warned.report,
      Warned.ret.
    rewrite (load_value _ _ _ _ Ha).
    cbn [Warned.store Warned.stderr Warned.registry].
    rewrite Hrun. cbn [Warned.store Warned.stderr Warned.registry].
    fold p. now destruct p. }
  eexists a', _. split; [exact E|].
  cbn [Warned.store Warned.stderr Warned.registry].
  split; [exact He|]. split; [|exact Hh].
  symmetry. apply surjective_pairing.
Qed.

Lemma elementwise_vec (s : Warned.state) (l : nat) (u : Warned.ufunc)
    (f : float -> float) (fl : float -> list Warned.kind)
    (a : ndarray) (n : nat) (v : vec float) :
  holds (Warned.store s) a (Sh1 n) [v] ->
  Warned.returns s (Warned.elementwise l u f fl a)
    (Warned.warnings l u (map fl v))
    (fun a' st => holds st a' (Sh1 n) [vmap f v]).
Proof.
  intros Ha. eapply warned_weaken.
  - apply (elementwise_returns s l u f fl a _ _ Ha).
  - simpl. now rewrite app_nil_r.
  - intros a' st Hh. exact Hh.
Qed.

Lemma elementwise_col (s : Warned.state) (l : nat) (u : Warned.ufunc)
    (f : float -> float) (fl : float -> list Warned.kind)
    (a : ndarray) (n : nat) (v : vec float) :
  holds (Warned.store s) a (Sh2 n 1) (reshape_col v) ->
  Warned.returns s (Warned.elementwise l u f fl a)
    (Warned.warnings l u (map fl v))
    (fun a' st => holds st a' (Sh2 n 1) (reshape_col (vmap f v))).
Proof.
  intros Ha. eapply warned_weaken.
  - apply (elementwise_returns s l u f fl a _ _ Ha).
  - now rewrite concat_reshape_col.
  - intros a' st Hh. now rewrite mmap_reshape_col in Hh.
Qed.

Lemma array_op_array_returns (s : Warned.state) (l : nat) (u : Warned.ufunc)
    (x y : ndarray) (shx shy sh : shape) (mx my : mat float)
    (Q : ndarray -> state float -> Prop) :
  holds (Warned.store s) x shx mx ->
  holds (Warned.store s) y shy my ->
  broadcast_shape shx shy = Some sh ->
  returns (Warned.store s) (np_binop (Warned.apply u) x y) Q ->
  Warned.returns s (Warned.array_op_array l u x y)
    (Warned.warnings l u
       (Warned.broadcast_flags u (rows_of sh) (cols_of sh) mx my))
    Q.
Proof.
  intros Hx Hy Hsh (a' & st & Hrun & He & HQ).
  destruct (holds_view _ _ _ _ Hx) as [Hdx Hvx].
  destruct (holds_view _ _ _ _ Hy) as [Hdy Hvy].
  pose (p := Warned.shown
               (Warned.warnings l u
                  (Warned.broadcast_flags u (rows_of sh) (cols_of sh) mx my))
               (Warned.stderr s, Warned.registry s)).
  assert (E : Warned.array_op_array l u x y s
              = (Ok a', {| Warned.store := st; Warned.stderr := fst p;
                           Warned.registry := snd p |})).
  { unfold Warned.array_op_array. rewrite Hdx, Hdy, Hsh.
    unfold Warned.bind, Warned.lift, Warned.report, Warned.ret, load.
    cbn [Warned.store Warned.stderr Warned.registry].
    rewrite Hrun. cbn [Warned.store Warned.stderr Warned.registry].
    rewrite Hvx, Hvy.
    fold p. now destruct p. }
  eexists a', _. split; [exact E|].
  cbn [Warned.store Warned.stderr Warned.registry].
  split; [exact He|]. split; [|exact HQ].
  symmetry. apply surjective_pairing.
Qed.


Lemma broadcast_flags_col_vec (u : Warned.ufunc) (n k : nat) (us vs : vec float) :
  length us = n -> length vs = k ->
  Warned.broadcast_flags u n k (reshape_col us) [vs]
  = flat_map (fun x => map (Warned.flags u x) vs) us.
Proof.
  intros Hn Hk. unfold Warned.broadcast_flags.
  assert (Hl : length (reshape_col us) = n)
    by (unfold reshape_col; now rewrite length_map).
  rewrite (stretch_id n (reshape_col us) Hl). simpl stretch.
  rewrite <- Hl, map2_repeat_r.
  unfold reshape_col. rewrite map_map, flat_map_concat_map.
  f_equal. apply map_ext; intros x. simpl stretch.
  rewrite (stretch_id k vs Hk), <- Hk. apply map2_repeat_l.
Qed.

Lemma broadcast_flags_vec_vec (u : Warned.ufunc) (k : nat) (us vs : vec float) :
  length us = k -> length vs = k ->
  Warned.broadcast_flags u 1 k [us] [vs] = map2 (Warned.flags u) us vs.
Proof.
  intros Hu Hv. unfold Warned.broadcast_flags. simpl.
  now rewrite (stretch_id k us Hu), (stretch_id k vs Hv), app_nil_r.
Qed.

Lemma broadcast_flags_mat_mat (u : Warned.ufunc) (n k : nat) (mx my : mat float) :
  length mx = n -> length my = n ->
  Forall (fun row => length row = k) mx ->
  Forall (fun row => length row = k) my ->
  Warned.broadcast_flags u n k mx my
  = concat (map2 (map2 (Warned.flags u)) mx my).
Proof.
  intros Hx Hy Hxc Hyc. unfold Warned.broadcast_flags.
  rewrite (stretch_id n mx Hx), (stretch_id n my Hy). f_equal.
  apply map2_ext_Forall with (1 := fun ra rb Ha Hb =>
    f_equal2 (map2 (Warned.flags u)) (stretch_id k ra Ha) (stretch_id k rb Hb));
    assumption.
Qed.

Lemma array_op_array_col_vec (s : Warned.state) (l : nat) (u : Warned.ufunc)
    (x y : ndarray) (n k : nat) (us vs : vec float) :
  holds (Warned.store s) x (Sh2 n 1) (reshape_col us) ->
  holds (Warned.store s) y (Sh1 k) [vs] ->
  Warned.returns s (Warned.array_op_array l u x y)
    (Warned.warnings l u (flat_map (fun a => map (Warned.flags u a) vs) us))
    (fun a' st =>
       holds st a' (Sh2 n k) (bcast (Warned.apply u) (reshape_col us) vs)).
Proof.
  intros Hx Hy.
  pose proof Hx as (_ & _ & Hxr & _). pose proof Hy as (_ & _ & _ & Hyc).
  simpl in Hxr, Hyc. apply Forall_inv in Hyc.
  unfold reshape_col in Hxr. rewrite length_map in Hxr.
  eapply warned_weaken.
  - eapply (array_op_array_returns s l u x y _ _ (Sh2 n k)); [exact Hx|exact Hy| |].
    + unfold broadcast_shape; simpl. now rewrite bdim_one_r, bdim_one_l.
    + apply np_binop_col_vec; eassumption.
  - simpl rows_of. simpl cols_of. now rewrite broadcast_flags_col_vec.
  - auto.
Qed.

Lemma array_op_array_vec_vec (s : Warned.state) (l : nat) (u : Warned.ufunc)
    (x y : ndarray) (k : nat) (us vs : vec float) :
  holds (Warned.store s) x (Sh1 k) [us] ->
  holds (Warned.store s) y (Sh1 k) [vs] ->
  Warned.returns s (Warned.array_op_array l u x y)
    (Warned.warnings l u (map2 (Warned.flags u) us vs))
    (fun a' st => holds st a' (Sh1 k) [vzip (Warned.apply u) us vs]).
Proof.
  intros Hx Hy.
  pose proof Hx as (_ & _ & _ & Hxc). pose proof Hy as (_ & _ & _ & Hyc).
  simpl in Hxc, Hyc. apply Forall_inv in Hxc, Hyc.
  eapply warned_weaken.
  - eapply (array_op_array_returns s l u x y _ _ (Sh1 k)); [exact Hx|exact Hy| |].
    + unfold broadcast_shape; simpl. now rewrite bdim_same.
    + apply np_binop_vec_vec; eassumption.
  - simpl rows_of. simpl cols_of. now rewrite broadcast_flags_vec_vec.
  - auto.
Qed.

Lemma array_op_array_mat_mat (s : Warned.state) (l : nat) (u : Warned.ufunc)
    (x y : ndarray) (n k : nat) (mx my : mat float) :
  holds (Warned.store s) x (Sh2 n k) mx ->
  holds (Warned.store s) y (Sh2 n k) my ->
  Warned.returns s (Warned.array_op_array l u x y)
    (Warned.warnings l u (concat (map2 (map2 (Warned.flags u)) mx my)))
    (fun a' st => holds st a' (Sh2 n k) (mzip (Warned.apply u) mx my)).
Proof.
  intros Hx Hy.
  pose proof Hx as (_ & _ & Hxr & Hxc). pose proof Hy as (_ & _ & Hyr & Hyc).
  simpl in Hxr, Hxc, Hyr, Hyc.
  eapply warned_weaken.
  - eapply (array_op_array_returns s l u x y _ _ (Sh2 n k)); [exact Hx|exact Hy| |].
    + unfold broadcast_shape; simpl. now rewrite !bdim_same.
    + apply np_binop_mat_mat; eassumption.
  - simpl rows_of. simpl cols_of. now rewrite broadcast_flags_mat_mat.
  - auto.
Qed.

Lemma map2_map_r {A B C} (f : A -> B -> C) (h : A -> B) (l : list A) :
  map2 f l (map h l) = map (fun x => f x (h x)) l.
Proof.
  induction l as [|x l IH]; simpl; [reflexivity|]. now rewrite IH.
Qed.

Lemma flat_map_grid {A B C D E} (fl : C -> D -> E) (f : A -> C) (g : B -> D)
    (T : list A) (V : list B) :
  flat_map (fun a => map (fl a) (map g V)) (map f T)
  = flat_map (fun t => map (fun v => fl (f t) (g v)) V) T.
Proof.
  induction T as [|t T IH]; simpl; [reflexivity|].
  now rewrite IH, map_map.
Qed.

(** ** The body, statement by statement *)

Ltac warned_carry E :=
  repeat match goal with
         | Hx : holds ?st _ _ _ |- _ =>
             match type of E with
             | extends st _ => apply (holds_extends _ _ _ _ _ E) in Hx
             end
         end.

Ltac warned_statement lem :=
  eapply warned_bind;
  [ eapply lem; eassumption
  | let a := fresh "a" in
    let s' := fresh "s" in
    let E := fresh "E" in
    let Ha := fresh "Ha" in
    intros a s' E Ha; cbv beta in Ha; warned_carry E; clear E ].

Ltac warned_view :=
  eapply warned_bind;
  [ apply warned_lift; eapply np_reshape_col_holds; eassumption
  | let a := fresh "a" in
    let s' := fresh "s" in
    let E := fresh "E" in
    let Ha := fresh "Ha" in
    intros a s' E Ha; cbv beta in Ha; warned_carry E; clear E ].

Lemma exec_calculate_pr_eos_warned (s : Warned.state) (tK mV : ndarray)
    (T V : vec float) :
  holds (Warned.store s) tK (Sh1 (length T)) [T] ->
  holds (Warned.store s) mV (Sh1 (length V)) [V] ->
  Warned.returns s (Warned.exec_calculate_pr_eos tK mV) (Warned.issued T V)
    (fun g st =>
       holds st g (Sh2 (length T) (length V)) (calculate_pr_eos T V)).
Proof.
  intros HT HV.
  unfold Warned.exec_calculate_pr_eos, Warned.array_op_scalar,
    Warned.scalar_op_array, Warned.unary.
  eapply warned_weaken.
  - warned_statement elementwise_vec.
    warned_view.
    do 8 warned_statement elementwise_col.
    warned_view.
    warned_statement elementwise_col.
    warned_statement elementwise_vec.
    warned_statement array_op_array_col_vec.
    warned_statement elementwise_vec.
    warned_statement array_op_array_vec_vec.
    do 2 warned_statement elementwise_vec.
    warned_statement array_op_array_vec_vec.
    warned_statement array_op_array_col_vec.
    eapply array_op_array_mat_mat; eassumption.
  - unfold Warned.issued, vmap, vzip. cbv beta zeta.
    rewrite !app_nil_l, !bcast_reshape_col.
    rewrite !map2_map_r, !map_map, !map2_map_same.
    rewrite !flat_map_grid.
    repeat (apply (f_equal2 (@app Warned.warning)); [reflexivity|]).
    rewrite flat_map_concat_map. do 2 f_equal.
    apply map_ext; intros t. rewrite !map_map. apply map2_map_same.
  - intros g st Hg. unfold calculate_pr_eos.
    rewrite !mmap_reshape_col. exact Hg.
Qed.

(** What a call does to the store is what the statements of the store
    model do. *)
Lemma refines_lift {A : Type} (c : M float A) : Warned.refines (Warned.lift c) c.
Proof.
  intros s. unfold Warned.lift. destruct (c (Warned.store s)). split; reflexivity.
Qed.

Lemma refines_bind {A B : Type} (cw : Warned.W A) (c : M float A)
    (kw : A -> Warned.W B) (k : A -> M float B) :
  Warned.refines cw c ->
  (forall a, Warned.refines (kw a) (k a)) ->
  Warned.refines (Warned.bind cw kw) (bind c k).
Proof.
  intros Hc Hk s. destruct (Hc s) as [Hr Hs].
  unfold Warned.bind, bind.
  destruct (cw s) as [[a|e] s1]; destruct (c (Warned.store s)) as [[a'|e'] st];
    simpl in Hr, Hs; try discriminate; subst st.
  - injection Hr as ->. apply Hk.
  - injection Hr as ->. split; reflexivity.
Qed.

Lemma refines_elementwise (l : nat) (u : Warned.ufunc) (f : float -> float)
    (fl : float -> list Warned.kind) (a : ndarray) :
  Warned.refines (Warned.elementwise l u f fl a) (np_scalar f a).
Proof.
  intros s.
  unfold Warned.elementwise, Warned.bind, Warned.lift, Warned.report,
    Warned.ret, load.
  cbn [Warned.store Warned.stderr Warned.registry].
  destruct (np_scalar f a (Warned.store s)) as [[r|e] st];
    cbn [Warned.store Warned.stderr Warned.registry];
    [destruct (Warned.shown _ _)|]; split; reflexivity.
Qed.

Lemma refines_array_op_array (l : nat) (u : Warned.ufunc) (x y : ndarray) :
  Warned.refines (Warned.array_op_array l u x y) (np_binop (Warned.apply u) x y).
Proof.
  intros s. unfold Warned.array_op_array.
  destruct (broadcast_shape (dims x) (dims y)) as [sh|] eqn:Hsh.
  - unfold Warned.bind, Warned.lift, Warned.report, Warned.ret, load.
    cbn [Warned.store Warned.stderr Warned.registry].
    destruct (np_binop (Warned.apply u) x y (Warned.store s)) as [[r|e] st];
      cbn [Warned.store Warned.stderr Warned.registry];
      [destruct (Warned.shown _ _)|]; split; reflexivity.
  - unfold np_binop. rewrite Hsh. apply refines_lift.
Qed.

Lemma exec_calculate_pr_eos_refines (tK mV : ndarray) :
  Warned.refines (Warned.exec_calculate_pr_eos tK mV)
                 (exec_calculate_pr_eos tK mV).
Proof.
  unfold Warned.exec_calculate_pr_eos, exec_calculate_pr_eos,
    Warned.array_op_scalar, Warned.scalar_op_array, Warned.unary.
  repeat (apply refines_bind;
          [first [ apply refines_lift
                 | apply refines_elementwise
                 | apply refines_array_op_array ]
          | intros ? ]).
  apply refines_array_op_array.
Qed.

(** ** Purity, and where it ends *)

(** In the default run, and for the inputs of the known-value scenario,
    no operation raises a floating-point exception. *)
Lemma default_run_issues_no_warning :
  Warned.issued temperatures_K molar_volumes_m3_mol = [].
Proof. vm_compute. reflexivity. Qed.

Lemma known_value_issues_no_warning :
  Warned.issued [int 300] [dec 3 10000] = [].
Proof. vm_compute. reflexivity. Qed.

(** A negative temperature makes the square root invalid, and a zero
    temperature over a molar volume equal to [b] is zero divided by
    zero. *)
Lemma negative_temperature_issues_warnings :
  Warned.issued [int (-5); int 0] [b; int 1]
  = [ {| Warned.line := 36; Warned.ufunc_of := Warned.np_sqrt;
         Warned.reason := Warned.Invalid |};
      {| Warned.line := 41; Warned.ufunc_of := Warned.np_divide;
         Warned.reason := Warned.DivideByZero |};
      {| Warned.line := 41; Warned.ufunc_of := Warned.np_divide;
         Warned.reason := Warned.Invalid |} ].
Proof. vm_compute. reflexivity. Qed.

(** C9, as stated, fails in binary64.  With the single molar volume
    equal to [b] the first quotient divides by zero: the call writes a
    warning to the standard error stream and records it in the warning
    registry, and a second call with the same arguments, finding it
    there, writes nothing.  The call has an effect, and what a call
    writes depends on the calls before it. *)
Lemma singular_volume_writes_warning :
  let s0 := {| Warned.store := {| heap := [[int 300]; [b]]; out := [] |};
               Warned.stderr := []; Warned.registry := [] |} in
  let tK := {| base := 0; dims := Sh1 1 |} in
  let mV := {| base := 1; dims := Sh1 1 |} in
  let w := {| Warned.line := 41; Warned.ufunc_of := Warned.np_divide;
              Warned.reason := Warned.DivideByZero |} in
  let s1 := snd (Warned.exec_calculate_pr_eos tK mV s0) in
  let s2 := snd (Warned.exec_calculate_pr_eos tK mV s1) in
  Warned.stderr s0 = []
  /\ Warned.stderr s1 = [w]
  /\ Warned.registry s1 = [w]
  /\ Warned.stderr s2 = Warned.stderr s1.
Proof. vm_compute. repeat split; reflexivity. Qed.

(** C9, amended: in binary64, for every two one-axis input arrays the
    evaluator leaves both of them, and every other array of the store,
    unchanged; it prints, plots and saves nothing; and the grid it
    returns is a function of the contents of the two inputs alone.  Its
    only effect besides the new arrays is that of numpy's warnings: the
    warnings issued are a function of the two inputs, one for each ufunc
    call in which an entry divides by zero, overflows or is invalid; each
    goes through Python's default filter, which writes it to the standard
    error stream and records it in the warning registry unless it is
    recorded there already.  For inputs on which no operation raises a
    floating-point exception (those of the default run are such) nothing
    is written and the registry is left as it was. *)
Theorem exec_calculate_pr_eos_effects (s : Warned.state) (tK mV : ndarray)
    (T V : vec float) :
  holds (Warned.store s) tK (Sh1 (length T)) [T] ->
  holds (Warned.store s) mV (Sh1 (length V)) [V] ->
  exists (g : ndarray) (s' : Warned.state),
    Warned.exec_calculate_pr_eos tK mV s = (Ok g, s')
    /\ exec_calculate_pr_eos tK mV (Warned.store s) = (Ok g, Warned.store s')
    /\ holds (Warned.store s') g (Sh2 (length T) (length V))
             (calculate_pr_eos T V)
    /\ holds (Warned.store s') tK (Sh1 (length T)) [T]
    /\ holds (Warned.store s') mV (Sh1 (length V)) [V]
    /\ (exists fresh,
          heap (Warned.store s') = heap (Warned.store s) ++ fresh)
    /\ (forall a sh m,
          holds (Warned.store s) a sh m -> holds (Warned.store s') a sh m)
    /\ out (Warned.store s') = out (Warned.store s)
    /\ (Warned.stderr s', Warned.registry s')
       = Warned.shown (Warned.issued T V) (Warned.stderr s, Warned.registry s)
    /\ (Warned.issued T V = [] ->
        Warned.stderr s' = Warned.stderr s
        /\ Warned.registry s' = Warned.registry s).
Proof.
  intros HT HV.
  destruct (exec_calculate_pr_eos_warned s tK mV T V HT HV)
    as (g & s' & Hrun & Hext & Hw & Hg).
  destruct (exec_calculate_pr_eos_refines tK mV s) as [Hr Hs].
  rewrite Hrun in Hr, Hs. cbn [fst snd] in Hr, Hs.
  exists g, s'.
  split; [exact Hrun|].
  split; [rewrite (surjective_pairing (exec_calculate_pr_eos _ _ _));
          now rewrite <- Hr, <- Hs|].
  split; [exact Hg|].
  split; [now apply holds_extends with (Warned.store s)|].
  split; [now apply holds_extends with (Warned.store s)|].
  split; [exact (proj1 Hext)|].
  split; [intros a sh m Ha; now apply holds_extends with (Warned.store s)|].
  split; [exact (proj2 Hext)|].
  split; [exact Hw|].
  intros E. rewrite E in Hw. cbn in Hw. now injection Hw.
Qed.

Lemma exec_calculate_pr_eos_effects_witness :
  let s := {| Warned.store :=
                {| heap := [[int 295; int 325];
                            [dec 3 10000; dec 4 10000; dec 5 10000]];
                   out := [Printed "before"%string] |};
              Warned.stderr := []; Warned.registry := [] |} in
  let tK := {| base := 0; dims := Sh1 2 |} in
  let mV := {| base := 1; dims := Sh1 3 |} in
  let T : vec float := [int 295; int 325] in
  let V : vec float := [dec 3 10000; dec 4 10000; dec 5 10000] in
  exists (g : ndarray) (s' : Warned.state),
    Warned.exec_calculate_pr_eos tK mV s = (Ok g, s')
    /\ exec_calculate_pr_eos tK mV (Warned.store s) = (Ok g, Warned.store s')
    /\ holds (Warned.store s') g (Sh2 2 3) (calculate_pr_eos T V)
    /\ holds (Warned.store s') tK (Sh1 2) [T]
    /\ holds (Warned.store s') mV (Sh1 3) [V]
    /\ (exists fresh,
          heap (Warned.store s') = heap (Warned.store s) ++ fresh)
    /\ (forall a sh m,
          holds (Warned.store s) a sh m -> holds (Warned.store s') a sh m)
    /\ out (Warned.store s') = out (Warned.store s)
    /\ (Warned.stderr s', Warned.registry s')
       = Warned.shown (Warned.issued T V) (Warned.stderr s, Warned.registry s)
    /\ (Warned.issued T V = [] ->
        Warned.stderr s' = Warned.stderr s
        /\ Warned.registry s' = Warned.registry s).
Proof.
  cbv zeta.
  apply (exec_calculate_pr_eos_effects
           {| Warned.store :=
                {| heap := [[int 295; int 325];
                            [dec 3 10000; dec 4 10000; dec 5 10000]];
                   out := [Printed "before"%string] |};
              Warned.stderr := []; Warned.registry := [] |}
           {| base := 0; dims := Sh1 2 |} {| base := 1; dims := Sh1 3 |}
           [int 295; int 325] [dec 3 10000; dec 4 10000; dec 5 10000]).
  - apply (holds_vec_at _ _ _ 0 [int 295; int 325]). reflexivity.
  - apply (holds_vec_at _ _ _ 1 [dec 3 10000; dec 4 10000; dec 5 10000]).
    reflexivity.
Defined.
